(** * serverless-southwest-check-in: the Lambda handlers of [src/lambda/handler.py]

    A shallow embedding of the three handlers
    [schedule_check_in], [check_in] and [receive_email], and the
    properties of the check-in scheduling loop they implement.

    The handlers are Python functions over an untyped JSON event.  They are
    embedded in a state-and-exception monad: the state holds the [event]
    object the handler was given (Python mutates it in place), the state of
    the outside world the vendored library talks to, and the trace of what
    the handler did (log records and calls into the library). *)

From Stdlib Require Import String Ascii List ZArith Lia.
From stdpp Require Import base gmap strings list.
From Equations Require Import Equations.
From Equations.Prop Require Import Logic.

Set Warnings "-register-all".

(** ** Python values *)

(** JSON documents, as [json.loads] hands them to a Lambda handler. *)
Inductive value : Type :=
| VNone
| VBool (b : bool)
| VInt (n : Z)
| VStr (s : string)
| VList (l : list value)
| VDict (d : gmap string value).

(** The exceptions a handler can end with.  [NotLastCheckIn] is
    [lib.exceptions.NotLastCheckIn]; [LibError] is whatever a call into the
    vendored library or into boto3 raised, named by that library. *)
Inductive exn : Type :=
| KeyError (key : value)
| IndexError
| TypeError
| AttributeError
| NotLastCheckIn
| LibError (e : string).

Inductive result (A : Type) : Type :=
| Return (a : A)
| Raise (e : exn).
Arguments Return {A} a.
Arguments Raise {A} e.

(** [bool(v)], the test of [if v:]. *)
Definition truthy (v : value) : bool :=
  match v with
  | VNone => false
  | VBool b => b
  | VInt n => negb (n =? 0)%Z
  | VStr s => negb (String.length s =? 0)
  | VList l => negb (length l =? 0)
  | VDict d => negb (size d =? 0)
  end.

(** [v[k]] for a string key [k]. *)
Definition subscript (v : value) (k : string) : result value :=
  match v with
  | VDict d =>
      match d !! k with
      | Some x => Return x
      | None => Raise (KeyError (VStr k))
      end
  | _ => Raise TypeError
  end.

(** [v[0]]. *)
Definition subscript0 (v : value) : result value :=
  match v with
  | VList l =>
      match l with
      | x :: _ => Return x
      | [] => Raise IndexError
      end
  | VStr s =>
      match s with
      | String c _ => Return (VStr (String c EmptyString))
      | EmptyString => Raise IndexError
      end
  | VDict _ => Raise (KeyError (VInt 0))
  | _ => Raise TypeError
  end.

(** [v[k] = x]: the object [v] after the assignment. *)
Definition store (v : value) (k : string) (x : value) : result value :=
  match v with
  | VDict d => Return (VDict (<[k := x]> d))
  | _ => Raise TypeError
  end.

(** [v.pop()]: the element removed and the object [v] after the call.
    A list gives up its last element. *)
Definition pop (v : value) : result (value * value) :=
  match v with
  | VList l =>
      match last l with
      | Some x => Return (x, VList (removelast l))
      | None => Raise IndexError
      end
  | VDict _ => Raise TypeError
  | _ => Raise AttributeError
  end.

(** [len(v)]. *)
Definition len (v : value) : result nat :=
  match v with
  | VList l => Return (length l)
  | VDict d => Return (size d)
  | VStr s => Return (String.length s)
  | _ => Raise TypeError
  end.

(** [s.endswith(suffix)]. *)
Definition endswith (s suffix : string) : bool :=
  (String.length suffix <=? String.length s) &&
  String.eqb
    (substring (String.length s - String.length suffix)
               (String.length suffix) s)
    suffix.

(** ** What a handler leaves behind *)

Inductive level : Type := DEBUG | INFO | ERROR.

(** An argument of a log message: a value or the caught exception. *)
Inductive arg : Type :=
| Val (v : value)
| Exc (e : exn).

Inductive io : Type :=
| Log (lvl : level) (msg : string) (args : list arg)
| Call (f : string) (args : list value).

(** ** The vendored library [lib] and the other imports

    [lib.swa], [lib.email], [boto3] and [os.getenv] are used by the
    handlers and are not part of [handler.py]: they are taken as
    parameters.  A call reads and changes the world [W] (the airline's
    reservation system, the mailer, the Step Functions service) and either
    answers or raises.  The check-in times of a reservation come as a
    list, as the docstring of [schedule_check_in] has it.  The text
    [json.dumps] produces is identified with the document it encodes:
    [start_execution] gets its [input] as a [value]. *)

Inductive answer (A : Type) : Type :=
| Ok (a : A)
| Err (e : string).
Arguments Ok {A} a.
Arguments Err {A} e.

(** The attributes of [email.SesMailNotification] the handler reads. *)
Record SesMailNotification : Type := {
  message_id : value;
  source : string
}.

Record Lib (W : Type) : Type := {
  swa_get_reservation : value → value → value → W → answer value * W;
  swa_get_check_in_times_from_reservation :
    value → W → answer (list value) * W;
  swa_check_in : value → value → value → W → answer value * W;
  swa_email_boarding_pass :
    value → value → value → value → W → answer value * W;
  email_SesMailNotification : value → W → answer SesMailNotification * W;
  email_find_name_and_confirmation_number :
    SesMailNotification → W → answer (gmap string value) * W;
  boto3_client : string → W → answer unit * W;
  sfn_start_execution :
    value → value → W → answer (gmap string value) * W;
  os_getenv : string → W → value
}.
Arguments swa_get_reservation {W} _ _ _ _ _.
Arguments swa_get_check_in_times_from_reservation {W} _ _ _.
Arguments swa_check_in {W} _ _ _ _ _.
Arguments swa_email_boarding_pass {W} _ _ _ _ _ _.
Arguments email_SesMailNotification {W} _ _ _.
Arguments email_find_name_and_confirmation_number {W} _ _ _.
Arguments boto3_client {W} _ _ _.
Arguments sfn_start_execution {W} _ _ _ _.
Arguments os_getenv {W} _ _ _.

(** ** The handler monad *)

Record state (W : Type) : Type := State {
  event : gmap string value;
  world : W;
  trace : list io
}.
Arguments State {W} event world trace.
Arguments event {W} s.
Arguments world {W} s.
Arguments trace {W} s.

Definition M (W A : Type) : Type := state W → result A * state W.

#[global] Instance M_ret {W} : MRet (M W) := λ A a s, (Return a, s).

#[global] Instance M_bind {W} : MBind (M W) := λ A B f m s,
  match m s with
  | (Return a, s') => f a s'
  | (Raise e, s') => (Raise e, s')
  end.

Definition raise {W A} (e : exn) : M W A := λ s, (Raise e, s).

Definition lift {W A} (r : result A) : M W A := λ s, (r, s).

(** [try: m except Exception as e: h e].  What [m] did before it raised
    stays done. *)
Definition try_except {W A} (m : M W A) (h : exn → M W A) : M W A := λ s,
  match m s with
  | (Return a, s') => (Return a, s')
  | (Raise e, s') => h e s'
  end.

Definition get_event {W} : M W (gmap string value) := λ s,
  (Return (event s), s).

Definition set_event {W} (ev : gmap string value) : M W unit := λ s,
  (Return tt, State ev (world s) (trace s)).

Definition emit {W} (x : io) : M W unit := λ s,
  (Return tt, State (event s) (world s) (trace s ++ [x])).

Definition log {W} (lvl : level) (msg : string) (args : list arg) : M W unit :=
  emit (Log lvl msg args).

(** A call into the library: recorded, run against the world, and its
    failure raised as the library's exception. *)
Definition call {W A} (f : string) (args : list value)
    (c : W → answer A * W) : M W A := λ s,
  let s1 := State (event s) (world s) (trace s ++ [Call f args]) in
  match c (world s) with
  | (Ok a, w) => (Return a, State (event s1) w (trace s1))
  | (Err e, w) => (Raise (LibError e), State (event s1) w (trace s1))
  end.

(** [event[k]] *)
Definition event_item {W} (k : string) : M W value :=
  ev ← get_event; lift (subscript (VDict ev) k).

(** [event.get(k)] *)
Definition event_get {W} (k : string) : M W value :=
  ev ← get_event; mret (default VNone (ev !! k)).

(** [event[k] = x] *)
Definition event_store {W} (k : string) (x : value) : M W unit :=
  ev ← get_event; set_event (<[k := x]> ev).

(** ** The handlers *)

Section Handlers.
Context {W : Type} (lib : Lib W).

(** *** [schedule_check_in], lines 34-37: the check-in times are there,
    schedule the next one.

    [event['check_in_times']['remaining'].pop()] is evaluated first and
    shortens the list held by the event; the element is then stored under
    [event['check_in_times']['next']]; the event itself is returned. *)
Definition schedule_next : M W value :=
  check_in_times ← event_item "check_in_times";
  remaining ← lift (subscript check_in_times "remaining");
  '(next, remaining) ← lift (pop remaining);
  check_in_times ← lift (store check_in_times "remaining" remaining);
  event_store "check_in_times" check_in_times;;
  check_in_times ← event_item "check_in_times";
  check_in_times ← lift (store check_in_times "next" next);
  event_store "check_in_times" check_in_times;;
  ev ← get_event;
  mret (VDict ev).

(** *** [schedule_check_in], lines 40-52: new check-in, fetch the
    reservation and store its check-in times in the event. *)
Definition fetch_check_in_times : M W unit :=
  first_name ← event_item "first_name";
  last_name ← event_item "last_name";
  confirmation_number ← event_item "confirmation_number";
  event_store "check_in_times" (VDict ∅);;
  log INFO "Looking up reservation {} for {} {}"
    [Val confirmation_number; Val first_name; Val last_name];;
  reservation ←
    call "swa.get_reservation" [first_name; last_name; confirmation_number]
      (swa_get_reservation lib first_name last_name confirmation_number);
  log DEBUG "Reservation: {}" [Val reservation];;
  times ←
    call "swa.get_check_in_times_from_reservation" [reservation]
      (swa_get_check_in_times_from_reservation lib reservation);
  check_in_times ← event_item "check_in_times";
  check_in_times ← lift (store check_in_times "remaining" (VList times));
  event_store "check_in_times" check_in_times.

(** ['check_in_times' in event] *)
Definition planned (s : state W) : bool :=
  bool_decide (is_Some (event s !! "check_in_times")).

(** The recursion of [schedule_check_in] goes from an event without
    check-in times to one that has them, and stops there. *)
Definition unplanned (s : state W) : nat :=
  if planned s then 0 else 1.

Lemma fetch_check_in_times_planned s s' :
  fetch_check_in_times s = (Return tt, s') → planned s' = true.
Proof.
  unfold fetch_check_in_times, event_item, event_store, log, emit, call,
    get_event, set_event, lift, mbind, M_bind, mret, M_ret, planned.
  cbn.
  repeat
    match goal with
    | |- context [match ?x with _ => _ end] => destruct x eqn:?; cbn
    end;
    intros [= <-]; cbn;
    apply bool_decide_eq_true; rewrite lookup_insert_eq; eauto.
Qed.

(** *** [schedule_check_in] *)
Equations? schedule_check_in (s : state W) : result value * state W
    by wf (unplanned s) lt :=
schedule_check_in s with inspect (planned s) := {
  | exist _ true _ => schedule_next s
  | exist _ false Hnew with inspect (fetch_check_in_times s) := {
      | exist _ (Return _, s') Hfetch => schedule_check_in s'
      | exist _ (Raise e, s') _ => (Raise e, s') } }.
Proof.
  destruct a. unfold unplanned. rewrite Hnew.
  rewrite (fetch_check_in_times_planned _ _ Hfetch). lia.
Qed.

(** *** [check_in] *)
Definition check_in : M W value :=
  first_name ← event_item "first_name";
  last_name ← event_item "last_name";
  confirmation_number ← event_item "confirmation_number";
  email ← event_get "email";
  log INFO "Checking in {} {} ({})"
    [Val first_name; Val last_name; Val confirmation_number];;
  try_except
    (resp ←
       call "swa.check_in" [first_name; last_name; confirmation_number]
         (swa_check_in lib first_name last_name confirmation_number);
     log INFO "Checked in {} {}!" [Val first_name; Val last_name];;
     log DEBUG "Check-in response: {}" [Val resp])
    (λ e,
       log ERROR "Error checking in: {}" [Exc e];;
       raise e);;
  (if truthy email then
     log INFO "Emailing boarding pass to {}" [Val email];;
     try_except
       (call "swa.email_boarding_pass"
          [first_name; last_name; confirmation_number; email]
          (swa_email_boarding_pass lib
             first_name last_name confirmation_number email);;
        mret tt)
       (λ e, log ERROR "Error emailing boarding pass: {}" [Exc e])
   else mret tt);;
  (* Raise exception to schedule the next check-in *)
  check_in_times ← event_item "check_in_times";
  remaining ← lift (subscript check_in_times "remaining");
  n ← lift (len remaining);
  if 0 <? n then raise NotLastCheckIn else mret VNone.

(** [os.getenv(k)] *)
Definition getenv (k : string) : M W value := λ s,
  (Return (os_getenv lib k (world s)), s).

(** *** [receive_email] *)
Definition receive_email : M W value :=
  call "boto3.client" [VStr "stepfunctions"]
    (boto3_client lib "stepfunctions");;
  records ← event_item "Records";
  record ← lift (subscript0 records);
  ses_notification ← lift (subscript record "ses");
  state_machine_arn ← getenv "STATE_MACHINE_ARN";
  log DEBUG "State Machine ARN: {}" [Val state_machine_arn];;
  log DEBUG "SES Notification: {}" [Val ses_notification];;
  mail ← lift (subscript ses_notification "mail");
  ses_msg ←
    call "email.SesMailNotification" [mail]
      (email_SesMailNotification lib mail);
  found ←
    try_except
      (reservation ←
         call "email.find_name_and_confirmation_number"
           [message_id ses_msg; VStr (source ses_msg)]
           (email_find_name_and_confirmation_number lib ses_msg);
       log INFO "Found reservation: {}" [Val (VDict reservation)];;
       mret (Some reservation))
      (λ e,
         log ERROR "Error scraping email {}: {}"
           [Val (message_id ses_msg); Exc e];;
         mret None);
  match found with
  | None => mret VNone
  | Some reservation =>
      (* Don't add the email if it's straight from southwest.com *)
      let reservation :=
        if negb (endswith (source ses_msg) "southwest.com")
        then <["email" := VStr (source ses_msg)]> reservation
        else reservation in
      let input := VDict reservation in
      execution ←
        call "sfn.start_execution" [state_machine_arn; input]
          (sfn_start_execution lib state_machine_arn input);
      startDate ← lift (subscript (VDict execution) "startDate");
      log DEBUG "State machine started at: {}" [Val startDate];;
      executionArn ← lift (subscript (VDict execution) "executionArn");
      log DEBUG "Execution ARN: {}" [Val executionArn];;
      (* del(execution['startDate']) *)
      mret (VDict (delete "startDate" execution))
  end.

(** ** The run of a reservation *)

(** What one invocation of the pair tells the orchestrator. *)
Inductive signal : Type :=
| Continue
| Complete
| Fatal (e : exn).

(** Modelled from the spec: the orchestrator that re-invokes the handlers
    is a Step Functions state machine declared outside [handler.py].  One
    invocation of the pair runs [schedule_check_in] and hands the state it
    returns to [check_in]; [NotLastCheckIn] is routed to a re-invocation on
    the same workflow state, a plain return ends the run, and every other
    exception is a failure.  ([schedule_check_in] returns its event, an
    object; on anything else [check_in] would fail with [TypeError] at its
    first subscript.) *)
Definition invocation (s : state W) : signal * state W :=
  match schedule_check_in s with
  | (Return (VDict ev), s1) =>
      match check_in (State ev (world s1) (trace s1)) with
      | (Return _, s2) => (Complete, s2)
      | (Raise NotLastCheckIn, s2) =>
          (Continue, State ev (world s2) (trace s2))
      | (Raise e, s2) => (Fatal e, s2)
      end
  | (Return _, s1) => (Fatal TypeError, s1)
  | (Raise e, s1) => (Fatal e, s1)
  end.

(** Modelled from the spec: the run is the sequence of invocations up to
    the first one that does not signal [Continue], cut off after
    [max_invocations] of them. *)
Fixpoint run (max_invocations : nat) (s : state W) : list signal * state W :=
  match max_invocations with
  | 0 => ([], s)
  | S n =>
      match invocation s with
      | (Continue, s') =>
          let (signals, s'') := run n s' in (Continue :: signals, s'')
      | (sig, s') => ([sig], s')
      end
  end.

End Handlers.

(** ** Reading a workflow state *)

(** [event['check_in_times']['remaining']], the pending queue. *)
Definition remaining_of (ev : gmap string value) : option (list value) :=
  match ev !! "check_in_times" with
  | Some (VDict check_in_times) =>
      match check_in_times !! "remaining" with
      | Some (VList q) => Some q
      | _ => None
      end
  | _ => None
  end.

(** [event['check_in_times']['next']], the current opportunity. *)
Definition next_of (ev : gmap string value) : option value :=
  match ev !! "check_in_times" with
  | Some (VDict check_in_times) => check_in_times !! "next"
  | _ => None
  end.

(** The event carries the three fields of an identity. *)
Definition identity (ev : gmap string value)
    (first_name last_name confirmation_number : value) : Prop :=
  ev !! "first_name" = Some first_name ∧
  ev !! "last_name" = Some last_name ∧
  ev !! "confirmation_number" = Some confirmation_number.

(** The arguments of the [start_execution] calls of a trace. *)
Fixpoint started_runs (t : list io) : list (list value) :=
  match t with
  | [] => []
  | Call f args :: t' =>
      if String.eqb f "sfn.start_execution"
      then args :: started_runs t'
      else started_runs t'
  | Log _ _ _ :: t' => started_runs t'
  end.

(** The workflow state [schedule_check_in] returns after popping [next]
    and leaving [remaining]. *)
Definition scheduled (ev check_in_times : gmap string value)
    (remaining : list value) (next : value) : gmap string value :=
  <["check_in_times" :=
      VDict (<["next" := next]>
               (<["remaining" := VList remaining]> check_in_times))]> ev.

(** What a successful planning adds to the trace. *)
Definition planning_trace (fn ln cn reservation : value) : list io :=
  [ Log INFO "Looking up reservation {} for {} {}" [Val cn; Val fn; Val ln];
    Call "swa.get_reservation" [fn; ln; cn];
    Log DEBUG "Reservation: {}" [Val reservation];
    Call "swa.get_check_in_times_from_reservation" [reservation] ].

(** What [check_in] does once the Gateway call and the notification are
    behind it (lines 92-93). *)
Definition decision (q : list value) : result value :=
  match q with
  | [] => Return VNone
  | _ :: _ => Raise NotLastCheckIn
  end.

(** The trace of a Gateway check-in that succeeded. *)
Definition checked_in_trace (fn ln cn resp : value) : list io :=
  [ Log INFO "Checking in {} {} ({})" [Val fn; Val ln; Val cn];
    Call "swa.check_in" [fn; ln; cn];
    Log INFO "Checked in {} {}!" [Val fn; Val ln];
    Log DEBUG "Check-in response: {}" [Val resp] ].

(** The trace of a Gateway check-in that raised. *)
Definition check_in_error_trace (fn ln cn : value) (e : string) : list io :=
  [ Log INFO "Checking in {} {} ({})" [Val fn; Val ln; Val cn];
    Call "swa.check_in" [fn; ln; cn];
    Log ERROR "Error checking in: {}" [Exc (LibError e)] ].

(** The start of a notification. *)
Definition emailing_trace (fn ln cn email : value) : list io :=
  [ Log INFO "Emailing boarding pass to {}" [Val email];
    Call "swa.email_boarding_pass" [fn; ln; cn; email] ].



(** The current field is cleared: removed from the event, or set to [None]. *)
Definition cleared (ev : gmap string value) : Prop :=
  next_of ev = None ∨ next_of ev = Some VNone.

(** The address [address] is in the mail domain [domain]. *)
Definition from_domain (address domain : string) : Prop :=
  ∃ local, address = local +:+ "@" +:+ domain.

(** What [receive_email] adds to the trace before it scrapes the mail. *)
Definition receiving_trace (arn ses_notification mail : value)
    (msg : SesMailNotification) : list io :=
  [ Call "boto3.client" [VStr "stepfunctions"];
    Log DEBUG "State Machine ARN: {}" [Val arn];
    Log DEBUG "SES Notification: {}" [Val ses_notification];
    Call "email.SesMailNotification" [mail];
    Call "email.find_name_and_confirmation_number"
      [message_id msg; VStr (source msg)] ].

(** The reservation [receive_email] passes on (lines 116-117). *)
Definition forwarded (msg : SesMailNotification)
    (reservation : gmap string value) : gmap string value :=
  if negb (endswith (source msg) "southwest.com")
  then <["email" := VStr (source msg)]> reservation
  else reservation.

(** The Gateway check-ins of the run succeed: in each of the first [n]
    invocations of the run from [s], the call [check_in] makes for the
    identity [fn ln cn], in the world [schedule_check_in] hands over,
    answers.  Nothing is asked of the Gateway for other identities or in
    other worlds. *)
Fixpoint check_ins_succeed {W} (lib : Lib W) (fn ln cn : value)
    (n : nat) (s : state W) : Prop :=
  match n with
  | 0 => True
  | S n' =>
      (∃ resp w',
         swa_check_in lib fn ln cn (world (schedule_check_in lib s).2) =
           (Ok resp, w')) ∧
      check_ins_succeed lib fn ln cn n' (invocation lib s).2
  end.

(** The signal of an invocation that leaves the pending queue [q]. *)
Definition signal_of (q : list value) : signal :=
  match q with
  | [] => Complete
  | _ :: _ => Continue
  end.

(** Computations that leave the event as they found it. *)
Definition keeps_event {W A} (m : M W A) : Prop :=
  ∀ s, event (m s).2 = event s.

(** ** A small library to run the handlers on

    The world counts the calls made into the library; what the airline
    and the mailer answer is fixed by a [behaviour]. *)
Module Demo.

Record behaviour : Type := {
  times : list value;
  check_in_fails : bool;
  email_fails : bool;
  scrape_fails : bool;
  sender : string
}.

Definition reservation (cn : value) : value :=
  VDict {[ "confirmation_number" := cn ]}.

Definition found : gmap string value :=
  {[ "first_name" := VStr "George";
     "last_name" := VStr "Bush";
     "confirmation_number" := VStr "ABC123" ]}.

Definition execution : gmap string value :=
  {[ "executionArn" := VStr "arn:execution";
     "startDate" := VStr "2017-01-01" ]}.

Definition lib (b : behaviour) : Lib nat := {|
  swa_get_reservation := λ fn ln cn w, (Ok (reservation cn), S w);
  swa_get_check_in_times_from_reservation := λ r w, (Ok (times b), S w);
  swa_check_in := λ fn ln cn w,
    (if check_in_fails b then Err "CheckInError" else Ok (VStr "OK"), S w);
  swa_email_boarding_pass := λ fn ln cn email w,
    (if email_fails b then Err "SMTPError" else Ok VNone, S w);
  email_SesMailNotification := λ mail w,
    (Ok {| message_id := VStr "msg-1"; source := sender b |}, w);
  email_find_name_and_confirmation_number := λ msg w,
    (if scrape_fails b then Err "ReservationNotFoundError" else Ok found, w);
  boto3_client := λ name w, (Ok tt, w);
  sfn_start_execution := λ arn input w, (Ok execution, S w);
  os_getenv := λ k w, VStr "arn:state-machine"
|}.

(** Everything works; the reservation has the check-in times [q]. *)
Definition fine (q : list value) : behaviour :=
  {| times := q; check_in_fails := false; email_fails := false;
     scrape_fails := false; sender := "noreply@southwest.com" |}.

(** The Gateway check-in raises. *)
Definition check_in_down (q : list value) : behaviour :=
  {| times := q; check_in_fails := true; email_fails := false;
     scrape_fails := false; sender := "noreply@southwest.com" |}.

(** The mailer raises. *)
Definition mailer_down (q : list value) : behaviour :=
  {| times := q; check_in_fails := false; email_fails := true;
     scrape_fails := false; sender := "noreply@southwest.com" |}.

(** The inbound mail comes from a friend; [unreadable] says whether the
    reservation can be found in it. *)
Definition from_friend (unreadable : bool) : behaviour :=
  {| times := []; check_in_fails := false; email_fails := false;
     scrape_fails := unreadable; sender := "friend@example.com" |}.

(** A bare identity, as a run starts with. *)
Definition george : gmap string value :=
  {[ "first_name" := VStr "George";
     "last_name" := VStr "Bush";
     "confirmation_number" := VStr "ABC123" ]}.

(** The same with a notification recipient. *)
Definition george_notified : gmap string value :=
  <["email" := VStr "gwb@example.com"]> george.

(** A workflow state in the middle of a run. *)
Definition midrun (ev : gmap string value) (q : list value) (x : value)
    : gmap string value :=
  <["check_in_times" :=
      VDict {[ "remaining" := VList q; "next" := x ]}]> ev.

(** An SES notification event. *)
Definition mail : value := VDict {[ "messageId" := VStr "msg-1" ]}.
Definition ses_notification : value := VDict {[ "mail" := mail ]}.
Definition record : value := VDict {[ "ses" := ses_notification ]}.
Definition inbound : gmap string value :=
  {[ "Records" := VList [record] ]}.

Definition start (ev : gmap string value) : state nat := State ev 0 [].

(** Two opportunities pending, [T+1d] just attempted. *)
Definition two_pending : state nat :=
  start (midrun george [VStr "T+5d"; VStr "T+2d"] (VStr "T+1d")).

(** One opportunity pending, [T+2d] just popped; a recipient to notify. *)
Definition one_pending : state nat :=
  start (midrun george_notified [VStr "T+5d"] (VStr "T+2d")).

(** Nothing pending, [T+5d] just popped. *)
Definition none_pending : state nat :=
  start (midrun george [] (VStr "T+5d")).

(** The planner's queue of the two-opportunity scenario. *)
Definition scenario : list value := [VStr "T+5d"; VStr "T+2d"].

End Demo.

(** ** More to read off an event and a trace *)

(** The first of the identity fields, in the order the handlers read them,
    that the event lacks. *)
Definition missing_field (ev : gmap string value) : option string :=
  match ev !! "first_name" with
  | None => Some "first_name"
  | Some _ =>
      match ev !! "last_name" with
      | None => Some "last_name"
      | Some _ =>
          match ev !! "confirmation_number" with
          | None => Some "confirmation_number"
          | Some _ => None
          end
      end
  end.

(** The calls into the library a trace records, in order. *)
Fixpoint calls_of (t : list io) : list (string * list value) :=
  match t with
  | [] => []
  | Call f args :: t' => (f, args) :: calls_of t'
  | Log _ _ _ :: t' => calls_of t'
  end.

(** How many of them are calls of [f]. *)
Definition count_calls (f : string) (t : list io) : nat :=
  length (filter (λ c, String.eqb c.1 f = true) (calls_of t)).

(** The calls [check_in] makes for the identity [fn ln cn] and the
    recipient [email] when the Gateway check-in succeeds. *)
Definition check_in_calls (fn ln cn email : value)
    : list (string * list value) :=
  ("swa.check_in", [fn; ln; cn])
  :: (if truthy email
      then [("swa.email_boarding_pass", [fn; ln; cn; email])]
      else []).

(** Lines 92-93 of [check_in] as a function of the event: what the
    handler ends with once the Gateway call and the notification are
    behind it. *)
Definition continuation (ev : gmap string value) : result value :=
  match subscript (VDict ev) "check_in_times" with
  | Return check_in_times =>
      match subscript check_in_times "remaining" with
      | Return remaining =>
          match len remaining with
          | Return n => if 0 <? n then Raise NotLastCheckIn else Return VNone
          | Raise e => Raise e
          end
      | Raise e => Raise e
      end
  | Raise e => Raise e
  end.

(** [event['Records'][0]['ses']], the first thing [receive_email] reads
    off its event. *)
Definition ses_notification_of (ev : gmap string value) : result value :=
  match subscript (VDict ev) "Records" with
  | Return records =>
      match subscript0 records with
      | Return record => subscript record "ses"
      | Raise e => Raise e
      end
  | Raise e => Raise e
  end.

(** What [receive_email] has in its trace once it has asked for a run. *)
Definition starting_trace (arn ses_notification mail : value)
    (msg : SesMailNotification) (reservation : gmap string value)
    : list io :=
  receiving_trace arn ses_notification mail msg
  ++ [Log INFO "Found reservation: {}" [Val (VDict reservation)];
      Call "sfn.start_execution" [arn; VDict (forwarded msg reservation)]].

(** [m] called [n] times in a row, each call on the state the one before
    left; the first exception ends it. *)
Fixpoint repeatedly {W A} (m : M W A) (n : nat) : M W (list A) :=
  match n with
  | 0 => mret []
  | S n' => a ← m; l ← repeatedly m n'; mret (a :: l)
  end.

(** The [next] field of a returned workflow state. *)
Definition next_in (v : value) : option value :=
  match v with
  | VDict ev => next_of ev
  | _ => None
  end.

(** Computations that write to the event under [check_in_times] only. *)
Definition frames_event {W A} (m : M W A) : Prop :=
  ∀ s k, k ≠ "check_in_times" → event (m s).2 !! k = event s !! k.

(** Computations that neither call the library nor log. *)
Definition quiet {W A} (m : M W A) : Prop :=
  ∀ s, world (m s).2 = world s ∧ trace (m s).2 = trace s.

(** One of the two library calls of the planning raises [e]. *)
Definition planning_fails {W} (lib : Lib W)
    (fn ln cn : value) (w : W) (e : string) : Prop :=
  (∃ w1, swa_get_reservation lib fn ln cn w = (Err e, w1)) ∨
  (∃ reservation w1 w2,
     swa_get_reservation lib fn ln cn w = (Ok reservation, w1) ∧
     swa_get_check_in_times_from_reservation lib reservation w1 = (Err e, w2)).

(** Libraries in which something is down. *)
Module Outage.

(** The reservation cannot be looked up. *)
Definition no_reservation : Lib nat := {|
  swa_get_reservation := λ fn ln cn w, (Err "ReservationNotFoundError", S w);
  swa_get_check_in_times_from_reservation :=
    swa_get_check_in_times_from_reservation (Demo.lib (Demo.fine []));
  swa_check_in := swa_check_in (Demo.lib (Demo.fine []));
  swa_email_boarding_pass := swa_email_boarding_pass (Demo.lib (Demo.fine []));
  email_SesMailNotification :=
    email_SesMailNotification (Demo.lib (Demo.fine []));
  email_find_name_and_confirmation_number :=
    email_find_name_and_confirmation_number (Demo.lib (Demo.fine []));
  boto3_client := boto3_client (Demo.lib (Demo.fine []));
  sfn_start_execution := sfn_start_execution (Demo.lib (Demo.fine []));
  os_getenv := os_getenv (Demo.lib (Demo.fine []))
|}.

(** The notification cannot be parsed, or the run cannot be started, or
    the handle of the started run has no [startDate]. *)
Definition inbound_lib (unparsable refused undated : bool) : Lib nat := {|
  swa_get_reservation := swa_get_reservation (Demo.lib (Demo.fine []));
  swa_get_check_in_times_from_reservation :=
    swa_get_check_in_times_from_reservation (Demo.lib (Demo.fine []));
  swa_check_in := swa_check_in (Demo.lib (Demo.fine []));
  swa_email_boarding_pass := swa_email_boarding_pass (Demo.lib (Demo.fine []));
  email_SesMailNotification := λ mail w,
    (if unparsable then Err "KeyError"
     else Ok {| message_id := VStr "msg-1";
                source := "friend@notsouthwest.com" |}, w);
  email_find_name_and_confirmation_number := λ msg w, (Ok Demo.found, w);
  boto3_client := λ name w, (Ok tt, w);
  sfn_start_execution := λ arn input w,
    (if refused then Err "ExecutionLimitExceeded"
     else if undated then Ok {[ "executionArn" := VStr "arn:execution" ]}
     else Ok Demo.execution, S w);
  os_getenv := λ k w, VStr "arn:state-machine"
|}.

(** The Gateway checks in the reservation [confirmation] only. *)
Definition only_for (confirmation : string) (q : list value) : Lib nat := {|
  swa_get_reservation := swa_get_reservation (Demo.lib (Demo.fine q));
  swa_get_check_in_times_from_reservation :=
    swa_get_check_in_times_from_reservation (Demo.lib (Demo.fine q));
  swa_check_in := λ fn ln cn w,
    (match cn with
     | VStr c =>
         if String.eqb c confirmation then Ok (VStr "OK")
         else Err "CheckInError"
     | _ => Err "CheckInError"
     end, S w);
  swa_email_boarding_pass := swa_email_boarding_pass (Demo.lib (Demo.fine q));
  email_SesMailNotification :=
    email_SesMailNotification (Demo.lib (Demo.fine q));
  email_find_name_and_confirmation_number :=
    email_find_name_and_confirmation_number (Demo.lib (Demo.fine q));
  boto3_client := boto3_client (Demo.lib (Demo.fine q));
  sfn_start_execution := sfn_start_execution (Demo.lib (Demo.fine q));
  os_getenv := os_getenv (Demo.lib (Demo.fine q))
|}.

End Outage.

(** ** Basic facts about the handlers *)

Ltac unfold_M :=
  unfold event_item, event_get, event_store, get_event, set_event, log, emit,
    call, getenv, lift, raise, try_except, mbind, M_bind, mret, M_ret in *.

Lemma remaining_of_Some ev q :
  remaining_of ev = Some q →
  ∃ cit, ev !! "check_in_times" = Some (VDict cit) ∧
         cit !! "remaining" = Some (VList q).
Proof.
  unfold remaining_of. intros H.
  destruct (ev !! "check_in_times") as [[| | | | |cit]|]; try done.
  exists cit. split; [done|].
  destruct (cit !! "remaining") as [[| | | |l|]|]; try done.
  by injection H as ->.
Qed.

Lemma remaining_of_scheduled ev cit q x :
  remaining_of (scheduled ev cit q x) = Some q.
Proof.
  unfold remaining_of, scheduled. by simplify_map_eq.
Qed.

Lemma next_of_scheduled ev cit q x :
  next_of (scheduled ev cit q x) = Some x.
Proof.
  unfold next_of, scheduled. by simplify_map_eq.
Qed.

Lemma scheduled_other ev cit q x k :
  k ≠ "check_in_times" → scheduled ev cit q x !! k = ev !! k.
Proof.
  intros Hk. unfold scheduled. by rewrite lookup_insert_ne.
Qed.

Lemma identity_scheduled ev cit q x fn ln cn :
  identity ev fn ln cn → identity (scheduled ev cit q x) fn ln cn.
Proof.
  unfold identity. rewrite !scheduled_other by done. done.
Qed.

Section Facts.
Context {W : Type} (lib : Lib W).

Lemma schedule_next_snoc (s : state W) cit q x :
  event s !! "check_in_times" = Some (VDict cit) →
  cit !! "remaining" = Some (VList (q ++ [x])) →
  schedule_next s =
    (Return (VDict (scheduled (event s) cit q x)),
     State (scheduled (event s) cit q x) (world s) (trace s)).
Proof.
  intros Hcit Hrem. unfold schedule_next. unfold_M. cbn.
  rewrite Hcit. cbn. rewrite Hrem. cbn.
  rewrite last_snoc, removelast_last. cbn.
  rewrite lookup_insert_eq. cbn.
  unfold scheduled. by rewrite insert_insert_eq.
Qed.

Lemma schedule_next_empty (s : state W) cit :
  event s !! "check_in_times" = Some (VDict cit) →
  cit !! "remaining" = Some (VList []) →
  schedule_next s = (Raise IndexError, s).
Proof.
  intros Hcit Hrem. unfold schedule_next. unfold_M. cbn.
  rewrite Hcit. cbn. by rewrite Hrem.
Qed.

Lemma planned_true (s : state W) v :
  event s !! "check_in_times" = Some v → planned s = true.
Proof.
  intros H. unfold planned. apply bool_decide_eq_true. eauto.
Qed.

Lemma planned_false (s : state W) :
  event s !! "check_in_times" = None → planned s = false.
Proof.
  intros H. unfold planned. apply bool_decide_eq_false.
  rewrite H. by intros [? ?].
Qed.

Lemma schedule_check_in_eq (s : state W) :
  schedule_check_in lib s =
    if planned s then schedule_next s
    else match fetch_check_in_times lib s with
         | (Return _, s') => schedule_check_in lib s'
         | (Raise e, s') => (Raise e, s')
         end.
Proof.
  rewrite schedule_check_in_unfold_eq. unfold schedule_check_in_unfold.
  assert (Hclause : ∀ b (Hb : planned s = b),
    schedule_check_in_unfold_clause_1 lib s (exist _ b Hb) =
    if b then schedule_next s
    else match fetch_check_in_times lib s with
         | (Return _, s') => schedule_check_in lib s'
         | (Raise e, s') => (Raise e, s')
         end).
  { intros [] Hb; cbn; [reflexivity|].
    assert (Hfetch : ∀ r (Hr : fetch_check_in_times lib s = r),
      schedule_check_in_unfold_clause_1_clause_2 lib s (exist _ r Hr) Hb =
      match r with
      | (Return _, s') => schedule_check_in lib s'
      | (Raise e, s') => (Raise e, s')
      end).
    { intros [[[]|e] s'] Hr; cbn; reflexivity. }
    apply Hfetch. }
  apply Hclause.
Qed.

Lemma schedule_check_in_planned (s : state W) :
  planned s = true → schedule_check_in lib s = schedule_next s.
Proof.
  intros H. by rewrite schedule_check_in_eq, H.
Qed.

Lemma schedule_check_in_unplanned (s : state W) :
  planned s = false →
  schedule_check_in lib s =
    (fetch_check_in_times lib ≫= λ _, schedule_next) s.
Proof.
  intros H. rewrite schedule_check_in_eq, H. unfold mbind, M_bind.
  destruct (fetch_check_in_times lib s) as [[[]|e] s'] eqn:Hfetch; [|done].
  apply schedule_check_in_planned.
  eapply fetch_check_in_times_planned, Hfetch.
Qed.

Lemma fetch_check_in_times_ok (s : state W) fn ln cn reservation w1 q w2 :
  identity (event s) fn ln cn →
  swa_get_reservation lib fn ln cn (world s) = (Ok reservation, w1) →
  swa_get_check_in_times_from_reservation lib reservation w1 = (Ok q, w2) →
  fetch_check_in_times lib s =
    (Return tt,
     State (<["check_in_times" := VDict {["remaining" := VList q]}]> (event s))
           w2 (trace s ++ planning_trace fn ln cn reservation)).
Proof.
  intros (Hfn & Hln & Hcn) Hres Htimes.
  unfold fetch_check_in_times. unfold_M. cbn.
  rewrite Hfn. cbn. rewrite Hln. cbn. rewrite Hcn. cbn.
  rewrite Hres. cbn. rewrite Htimes. cbn.
  rewrite lookup_insert_eq. cbn.
  rewrite insert_insert_eq, insert_empty.
  unfold planning_trace. by rewrite <- !app_assoc.
Qed.

Lemma check_in_gateway_failure (s : state W) fn ln cn e w1 :
  identity (event s) fn ln cn →
  swa_check_in lib fn ln cn (world s) = (Err e, w1) →
  check_in lib s =
    (Raise (LibError e),
     State (event s) w1 (trace s ++ check_in_error_trace fn ln cn e)).
Proof.
  intros (Hfn & Hln & Hcn) Hgw.
  unfold check_in. unfold_M. cbn.
  rewrite Hfn. cbn. rewrite Hln. cbn. rewrite Hcn. cbn.
  rewrite Hgw. cbn.
  unfold check_in_error_trace. by rewrite <- !app_assoc.
Qed.

Lemma check_in_no_email (s : state W) fn ln cn resp w1 q :
  identity (event s) fn ln cn →
  truthy (default VNone (event s !! "email")) = false →
  remaining_of (event s) = Some q →
  swa_check_in lib fn ln cn (world s) = (Ok resp, w1) →
  check_in lib s =
    (decision q,
     State (event s) w1 (trace s ++ checked_in_trace fn ln cn resp)).
Proof.
  intros (Hfn & Hln & Hcn) Hemail (cit & Hcit & Hrem)%remaining_of_Some Hgw.
  unfold check_in. unfold_M. cbn.
  rewrite Hfn. cbn. rewrite Hln. cbn. rewrite Hcn. cbn.
  rewrite Hgw. cbn. rewrite Hemail. cbn.
  rewrite Hcit. cbn. rewrite Hrem. cbn.
  unfold checked_in_trace. rewrite <- !app_assoc. cbn.
  by destruct q.
Qed.

Lemma check_in_email_delivered (s : state W) fn ln cn resp w1 q email r w2 :
  identity (event s) fn ln cn →
  event s !! "email" = Some email →
  truthy email = true →
  remaining_of (event s) = Some q →
  swa_check_in lib fn ln cn (world s) = (Ok resp, w1) →
  swa_email_boarding_pass lib fn ln cn email w1 = (Ok r, w2) →
  check_in lib s =
    (decision q,
     State (event s) w2
       (trace s ++ checked_in_trace fn ln cn resp
                ++ emailing_trace fn ln cn email)).
Proof.
  intros (Hfn & Hln & Hcn) Hemail Htruthy
    (cit & Hcit & Hrem)%remaining_of_Some Hgw Hmail.
  unfold check_in. unfold_M. cbn.
  rewrite Hfn. cbn. rewrite Hln. cbn. rewrite Hcn. cbn.
  rewrite Hemail. cbn. rewrite Hgw. cbn. rewrite Htruthy. cbn.
  rewrite Hmail. cbn.
  rewrite Hcit. cbn. rewrite Hrem. cbn.
  unfold checked_in_trace, emailing_trace. rewrite <- !app_assoc. cbn.
  by destruct q.
Qed.

Lemma check_in_email_failed (s : state W) fn ln cn resp w1 q email e w2 :
  identity (event s) fn ln cn →
  event s !! "email" = Some email →
  truthy email = true →
  remaining_of (event s) = Some q →
  swa_check_in lib fn ln cn (world s) = (Ok resp, w1) →
  swa_email_boarding_pass lib fn ln cn email w1 = (Err e, w2) →
  check_in lib s =
    (decision q,
     State (event s) w2
       (trace s ++ checked_in_trace fn ln cn resp
                ++ emailing_trace fn ln cn email
                ++ [Log ERROR "Error emailing boarding pass: {}"
                      [Exc (LibError e)]])).
Proof.
  intros (Hfn & Hln & Hcn) Hemail Htruthy
    (cit & Hcit & Hrem)%remaining_of_Some Hgw Hmail.
  unfold check_in. unfold_M. cbn.
  rewrite Hfn. cbn. rewrite Hln. cbn. rewrite Hcn. cbn.
  rewrite Hemail. cbn. rewrite Hgw. cbn. rewrite Htruthy. cbn.
  rewrite Hmail. cbn.
  rewrite Hcit. cbn. rewrite Hrem. cbn.
  unfold checked_in_trace, emailing_trace. rewrite <- !app_assoc. cbn.
  by destruct q.
Qed.

End Facts.

(** ** [schedule_check_in] *)

Lemma schedule_next_pop {W} (s : state W) q x :
  remaining_of (event s) = Some (q ++ [x]) →
  ∃ ev',
    schedule_next s = (Return (VDict ev'), State ev' (world s) (trace s)) ∧
    remaining_of ev' = Some q ∧ next_of ev' = Some x ∧
    (∀ k, k ≠ "check_in_times" → ev' !! k = event s !! k).
Proof.
  intros (cit & Hcit & Hrem)%remaining_of_Some.
  exists (scheduled (event s) cit q x).
  split; [by apply schedule_next_snoc|].
  split; [apply remaining_of_scheduled|].
  split; [apply next_of_scheduled|].
  intros k Hk. by apply scheduled_other.
Qed.

Lemma schedule_next_exhausted {W} (s : state W) :
  remaining_of (event s) = Some [] →
  schedule_next s = (Raise IndexError, s).
Proof.
  intros (cit & Hcit & Hrem)%remaining_of_Some.
  by eapply schedule_next_empty.
Qed.



(** C6: on a bare identity [schedule_check_in] plans once (one
    reservation lookup, one list of check-in times) and pops once, and what
    it returns is what it returns on the same identity with
    [check_in_times.remaining] already set to the planner's queue. *)
Theorem schedule_check_in_bare_identity {W} (lib : Lib W)
    (s : state W) fn ln cn reservation w1 q w2 :
  event s !! "check_in_times" = None →
  identity (event s) fn ln cn →
  swa_get_reservation lib fn ln cn (world s) = (Ok reservation, w1) →
  swa_get_check_in_times_from_reservation lib reservation w1 = (Ok q, w2) →
  let populated :=
    <["check_in_times" := VDict {["remaining" := VList q]}]> (event s) in
  (∀ w t,
     (schedule_check_in lib s).1 =
     (schedule_check_in lib (State populated w t)).1) ∧
  event (schedule_check_in lib s).2 =
    event (schedule_check_in lib (State populated w2 (trace s))).2 ∧
  world (schedule_check_in lib s).2 = w2 ∧
  trace (schedule_check_in lib s).2 =
    trace s ++ planning_trace fn ln cn reservation ∧
  (∀ q' x, q = q' ++ [x] →
     (schedule_check_in lib s).1 =
       Return (VDict (scheduled (event s) ∅ q' x))).
Proof.
  intros Hbare Hid Hres Htimes populated.
  rewrite (schedule_check_in_unplanned lib s) by by apply planned_false.
  unfold mbind, M_bind.
  rewrite (fetch_check_in_times_ok lib s fn ln cn reservation w1 q w2)
    by done.
  fold populated.
  assert (Hpop : ∀ (w : W) t, planned (State populated w t) = true).
  { intros w t. eapply planned_true. cbn. unfold populated.
    apply lookup_insert_eq. }
  assert (Hcit : ∀ (w : W) t,
            event (State populated w t) !! "check_in_times" =
                        Some (VDict {["remaining" := VList q]})).
  { intros w t. cbn. unfold populated. apply lookup_insert_eq. }
  assert (Hrem : ({["remaining" := VList q]} : gmap string value)
                   !! "remaining" = Some (VList q)).
  { apply lookup_singleton_eq. }
  destruct q as [|x0 q0 _] using rev_ind.
  - repeat split.
    + intros w t. rewrite schedule_check_in_planned by apply Hpop.
      by rewrite !(schedule_next_empty _ _ (Hcit _ _) Hrem).
    + rewrite schedule_check_in_planned by apply Hpop.
      by rewrite !(schedule_next_empty _ _ (Hcit _ _) Hrem).
    + by rewrite !(schedule_next_empty _ _ (Hcit _ _) Hrem).
    + by rewrite !(schedule_next_empty _ _ (Hcit _ _) Hrem).
    + intros q' x Hnil. by destruct q'.
  - repeat split.
    + intros w t. rewrite schedule_check_in_planned by apply Hpop.
      by rewrite !(schedule_next_snoc _ _ _ _ (Hcit _ _) Hrem).
    + rewrite schedule_check_in_planned by apply Hpop.
      by rewrite !(schedule_next_snoc _ _ _ _ (Hcit _ _) Hrem).
    + by rewrite !(schedule_next_snoc _ _ _ _ (Hcit _ _) Hrem).
    + by rewrite !(schedule_next_snoc _ _ _ _ (Hcit _ _) Hrem).
    + intros q' x [-> ->]%app_inj_tail.
      rewrite !(schedule_next_snoc _ _ _ _ (Hcit _ _) Hrem). cbn.
      unfold scheduled, populated.
      by rewrite insert_insert_eq, insert_empty.
Qed.

Lemma schedule_check_in_bare_identity_witness :
  (schedule_check_in (Demo.lib (Demo.fine Demo.scenario))
     (Demo.start Demo.george)).1 =
    Return (VDict (scheduled Demo.george ∅ [VStr "T+5d"] (VStr "T+2d"))).
Proof.
  refine (proj2 (proj2 (proj2 (proj2
    (schedule_check_in_bare_identity (Demo.lib (Demo.fine Demo.scenario))
       (Demo.start Demo.george)
       (VStr "George") (VStr "Bush") (VStr "ABC123")
       (Demo.reservation (VStr "ABC123")) 1
       [VStr "T+5d"; VStr "T+2d"] 2 _ _ _ _))))
    [VStr "T+5d"] (VStr "T+2d") _);
    try reflexivity.
  repeat split.
Defined.

(** ** [check_in] *)

Create HintDb keeps.

Lemma keeps_ret {W A} (a : A) : keeps_event (mret a : M W A).
Proof. by intros s. Qed.

Lemma keeps_raise {W A} (e : exn) : keeps_event (raise e : M W A).
Proof. by intros s. Qed.

Lemma keeps_lift {W A} (r : result A) : keeps_event (lift r : M W A).
Proof. by intros s. Qed.

Lemma keeps_log {W} lvl msg args : keeps_event (log lvl msg args : M W unit).
Proof. by intros s. Qed.

Lemma keeps_get_event {W} : keeps_event (get_event : M W _).
Proof. by intros s. Qed.

Lemma keeps_call {W A} f args (c : W → answer A * W) :
  keeps_event (call f args c).
Proof. intros s. unfold call. by destruct (c (world s)) as [[a|e] w]. Qed.

Lemma keeps_bind {W A B} (m : M W A) (f : A → M W B) :
  keeps_event m → (∀ a, keeps_event (f a)) → keeps_event (m ≫= f).
Proof.
  intros Hm Hf s. unfold mbind, M_bind.
  specialize (Hm s). destruct (m s) as [[a|e] s']; cbn in *; [|done].
  by rewrite Hf.
Qed.

Lemma keeps_try_except {W A} (m : M W A) (h : exn → M W A) :
  keeps_event m → (∀ e, keeps_event (h e)) → keeps_event (try_except m h).
Proof.
  intros Hm Hh s. unfold try_except.
  specialize (Hm s). destruct (m s) as [[a|e] s']; cbn in *; [done|].
  by rewrite Hh.
Qed.

Lemma keeps_event_item {W} k : keeps_event (event_item k : M W value).
Proof. apply keeps_bind; [apply keeps_get_event|intros; apply keeps_lift]. Qed.

Lemma keeps_event_get {W} k : keeps_event (event_get k : M W value).
Proof. apply keeps_bind; [apply keeps_get_event|intros; apply keeps_ret]. Qed.

#[global] Hint Resolve keeps_ret keeps_raise keeps_lift keeps_log
  keeps_get_event keeps_call keeps_event_item keeps_event_get : keeps.

Ltac keeps :=
  repeat first
    [ solve [auto with keeps]
    | apply keeps_bind; [|intros]
    | apply keeps_try_except; [|intros]
    | match goal with |- keeps_event (if ?b then _ else _) => destruct b end ].

(** [check_in] reads the event and never writes to it. *)
Lemma check_in_keeps_event {W} (lib : Lib W) (s : state W) :
  event (check_in lib s).2 = event s.
Proof.
  revert s. change (keeps_event (check_in lib)).
  unfold check_in. keeps.
Qed.

(** Once the Gateway call has succeeded, the outcome of [check_in] is the
    [decision] on the pending queue, whatever the notification does. *)
Lemma check_in_decides {W} (lib : Lib W) (s : state W) fn ln cn resp w1 q :
  identity (event s) fn ln cn →
  remaining_of (event s) = Some q →
  swa_check_in lib fn ln cn (world s) = (Ok resp, w1) →
  (check_in lib s).1 = decision q.
Proof.
  intros Hid Hq Hgw.
  destruct (event s !! "email") as [email|] eqn:Hemail.
  - destruct (truthy email) eqn:Htruthy.
    + destruct (swa_email_boarding_pass lib fn ln cn email w1)
        as [[r|e] w2] eqn:Hmail.
      * by erewrite check_in_email_delivered.
      * by erewrite check_in_email_failed.
    + erewrite check_in_no_email; try done. by rewrite Hemail.
  - erewrite check_in_no_email; try done. by rewrite Hemail.
Qed.

(** C3: when the Gateway check-in succeeds, [check_in] raises
    [NotLastCheckIn] exactly when [check_in_times.remaining] is not empty,
    and returns (with [None]) when it is empty. *)
Theorem check_in_continues_iff_pending {W} (lib : Lib W)
    (s : state W) fn ln cn resp w1 q :
  identity (event s) fn ln cn →
  remaining_of (event s) = Some q →
  swa_check_in lib fn ln cn (world s) = (Ok resp, w1) →
  ((check_in lib s).1 = Raise NotLastCheckIn ↔ q ≠ []) ∧
  (q = [] → (check_in lib s).1 = Return VNone).
Proof.
  intros Hid Hq Hgw.
  rewrite (check_in_decides lib s fn ln cn resp w1 q) by done.
  destruct q; cbn; split; try done.
Qed.

Lemma check_in_continues_iff_pending_witness :
  ((check_in (Demo.lib (Demo.fine [])) Demo.one_pending).1
     = Raise NotLastCheckIn ↔ [VStr "T+5d"] ≠ []) ∧
  (check_in (Demo.lib (Demo.fine [])) Demo.none_pending).1 = Return VNone.
Proof.
  split.
  - refine (proj1 (check_in_continues_iff_pending (Demo.lib (Demo.fine []))
      Demo.one_pending
      (VStr "George") (VStr "Bush") (VStr "ABC123") (VStr "OK") 1
      [VStr "T+5d"] _ _ _));
      try reflexivity.
    repeat split.
  - refine (proj2 (check_in_continues_iff_pending (Demo.lib (Demo.fine []))
      Demo.none_pending
      (VStr "George") (VStr "Bush") (VStr "ABC123") (VStr "OK") 1
      [] _ _ _) _);
      try reflexivity.
    repeat split.
Defined.

(** C4: when the Gateway check-in raises, [check_in] logs the error and
    raises that same exception.  It does so whatever the event holds under
    [check_in_times]: [NotLastCheckIn] is not raised, no notification is
    attempted, and the event is left as it was. *)
Theorem check_in_gateway_failure_is_fatal {W} (lib : Lib W)
    (s : state W) fn ln cn e w1 :
  identity (event s) fn ln cn →
  swa_check_in lib fn ln cn (world s) = (Err e, w1) →
  (check_in lib s).1 = Raise (LibError e) ∧
  (check_in lib s).1 ≠ Raise NotLastCheckIn ∧
  trace (check_in lib s).2 = trace s ++ check_in_error_trace fn ln cn e ∧
  event (check_in lib s).2 = event s.
Proof.
  intros Hid Hgw.
  rewrite (check_in_gateway_failure lib s fn ln cn e w1) by done.
  cbn. repeat split; done.
Qed.

Lemma check_in_gateway_failure_is_fatal_witness :
  (check_in (Demo.lib (Demo.check_in_down [])) Demo.one_pending).1
    = Raise (LibError "CheckInError") ∧
  (check_in (Demo.lib (Demo.check_in_down [])) Demo.one_pending).1
    ≠ Raise NotLastCheckIn ∧
  trace (check_in (Demo.lib (Demo.check_in_down [])) Demo.one_pending).2 =
    check_in_error_trace (VStr "George") (VStr "Bush") (VStr "ABC123")
      "CheckInError" ∧
  event (check_in (Demo.lib (Demo.check_in_down [])) Demo.one_pending).2
    = event Demo.one_pending.
Proof.
  refine (check_in_gateway_failure_is_fatal
    (Demo.lib (Demo.check_in_down [])) Demo.one_pending
    (VStr "George") (VStr "Bush") (VStr "ABC123") "CheckInError" 1 _ _);
    try reflexivity.
  repeat split.
Defined.

(** C5: with a recipient in the event, a failure of
    [swa.email_boarding_pass] is logged and goes no further: [check_in]
    ends as it would have without it (it returns, or raises
    [NotLastCheckIn] when the pending queue is not empty), it does not
    raise the notification's exception, and the event, its pending queue
    included, is unchanged. *)
Theorem check_in_swallows_notification_failure {W} (lib : Lib W)
    (s : state W) fn ln cn resp w1 q email e w2 :
  identity (event s) fn ln cn →
  event s !! "email" = Some email →
  truthy email = true →
  remaining_of (event s) = Some q →
  swa_check_in lib fn ln cn (world s) = (Ok resp, w1) →
  swa_email_boarding_pass lib fn ln cn email w1 = (Err e, w2) →
  (check_in lib s).1 = decision q ∧
  (check_in lib s).1 ≠ Raise (LibError e) ∧
  (q ≠ [] → (check_in lib s).1 = Raise NotLastCheckIn) ∧
  event (check_in lib s).2 = event s ∧
  remaining_of (event (check_in lib s).2) = Some q ∧
  last (trace (check_in lib s).2) =
    Some (Log ERROR "Error emailing boarding pass: {}" [Exc (LibError e)]).
Proof.
  intros Hid Hemail Htruthy Hq Hgw Hmail.
  rewrite (check_in_email_failed lib s fn ln cn resp w1 q email e w2)
    by done.
  cbn [fst snd event trace]. repeat split; try done.
  - by destruct q.
  - by destruct q.
  - by rewrite !app_assoc, last_snoc.
Qed.

Lemma check_in_swallows_notification_failure_witness :
  (check_in (Demo.lib (Demo.mailer_down [])) Demo.one_pending).1
    = Raise NotLastCheckIn ∧
  (check_in (Demo.lib (Demo.mailer_down [])) Demo.one_pending).1
    ≠ Raise (LibError "SMTPError") ∧
  remaining_of
    (event (check_in (Demo.lib (Demo.mailer_down [])) Demo.one_pending).2)
    = Some [VStr "T+5d"].
Proof.
  destruct (check_in_swallows_notification_failure
    (Demo.lib (Demo.mailer_down [])) Demo.one_pending
    (VStr "George") (VStr "Bush") (VStr "ABC123") (VStr "OK") 1
    [VStr "T+5d"] (VStr "gwb@example.com") "SMTPError" 2)
    as (Hres & Hne & _ & _ & Hrem & _);
    try reflexivity.
  - repeat split.
  - exact (conj Hres (conj Hne Hrem)).
Defined.

(** C8 (as the code has it): [check_in] does not clear
    [check_in_times.next].  It never writes to the event: after the call
    [next] and [remaining] are what [schedule_check_in] left, [next] being
    the opportunity it popped and [remaining] no longer holding it. *)
Theorem check_in_leaves_next {W} (lib : Lib W) (s : state W) q x :
  remaining_of (event s) = Some (q ++ [x]) →
  let s1 := (schedule_check_in lib s).2 in
  next_of (event s1) = Some x ∧
  remaining_of (event s1) = Some q ∧
  event (check_in lib s1).2 = event s1 ∧
  next_of (event (check_in lib s1).2) = Some x ∧
  (∀ s0, event (check_in lib s0).2 = event s0).
Proof.
  intros Hq s1.
  assert (Hplanned : planned s = true).
  { apply remaining_of_Some in Hq as (cit & Hcit & _).
    by eapply planned_true. }
  destruct (schedule_next_pop s q x Hq) as (ev' & Hnext & Hrem' & Hnext' & _).
  assert (Hs1 : event s1 = ev').
  { unfold s1. by rewrite schedule_check_in_planned, Hnext. }
  rewrite check_in_keeps_event, Hs1.
  repeat split; try done.
  intros s0. apply check_in_keeps_event.
Qed.

Lemma check_in_leaves_next_witness :
  next_of
    (event (check_in (Demo.lib (Demo.fine []))
              (schedule_check_in (Demo.lib (Demo.fine []))
                 Demo.two_pending).2).2) =
    Some (VStr "T+2d").
Proof.
  refine (proj1 (proj2 (proj2 (proj2
    (check_in_leaves_next (Demo.lib (Demo.fine [])) Demo.two_pending
       [VStr "T+5d"] (VStr "T+2d") _)))));
    reflexivity.
Defined.

(** C8 as stated fails: after [check_in] the [next] field is still there,
    with the opportunity it held. *)
Lemma check_in_does_not_clear_next :
  next_of (event (check_in (Demo.lib (Demo.fine [])) Demo.one_pending).2)
    = Some (VStr "T+2d") ∧
  ¬ cleared (event (check_in (Demo.lib (Demo.fine [])) Demo.one_pending).2).
Proof.
  assert (H : next_of
                (event (check_in (Demo.lib (Demo.fine []))
                          Demo.one_pending).2)
              = Some (VStr "T+2d"))
    by (vm_compute; reflexivity).
  split; [exact H|].
  unfold cleared. rewrite H. intros [?|?]; discriminate.
Qed.

(** ** [receive_email] *)

Lemma started_runs_app (t1 t2 : list io) :
  started_runs (t1 ++ t2) = started_runs t1 ++ started_runs t2.
Proof.
  induction t1 as [|[lvl msg args|f args] t1 IH]; cbn; [done|done|].
  destruct (String.eqb f "sfn.start_execution"); cbn; by rewrite IH.
Qed.

Lemma receive_email_scrape_failed {W} (lib : Lib W) (s : state W)
    records record ses_notification mail w1 msg w2 e w3 :
  boto3_client lib "stepfunctions" (world s) = (Ok tt, w1) →
  event s !! "Records" = Some records →
  subscript0 records = Return record →
  subscript record "ses" = Return ses_notification →
  subscript ses_notification "mail" = Return mail →
  email_SesMailNotification lib mail w1 = (Ok msg, w2) →
  email_find_name_and_confirmation_number lib msg w2 = (Err e, w3) →
  receive_email lib s =
    (Return VNone,
     State (event s) w3
       (trace s
        ++ receiving_trace (os_getenv lib "STATE_MACHINE_ARN" w1)
             ses_notification mail msg
        ++ [Log ERROR "Error scraping email {}: {}"
              [Val (message_id msg); Exc (LibError e)]])).
Proof.
  intros Hclient Hrecords Hrecord Hses Hmail Hmsg Hfind.
  unfold receive_email. unfold_M. cbn.
  rewrite Hclient. cbn. rewrite Hrecords, Hrecord. cbn.
  rewrite Hses. cbn. rewrite Hmail. cbn. rewrite Hmsg. cbn.
  rewrite Hfind. cbn.
  unfold receiving_trace. by rewrite <- !app_assoc.
Qed.

Lemma receive_email_scraped {W} (lib : Lib W) (s : state W)
    records record ses_notification mail w1 msg w2 reservation w3 :
  boto3_client lib "stepfunctions" (world s) = (Ok tt, w1) →
  event s !! "Records" = Some records →
  subscript0 records = Return record →
  subscript record "ses" = Return ses_notification →
  subscript ses_notification "mail" = Return mail →
  email_SesMailNotification lib mail w1 = (Ok msg, w2) →
  email_find_name_and_confirmation_number lib msg w2 = (Ok reservation, w3) →
  let arn := os_getenv lib "STATE_MACHINE_ARN" w1 in
  ∃ rest,
    trace (receive_email lib s).2 =
      trace s
      ++ receiving_trace arn ses_notification mail msg
      ++ [Log INFO "Found reservation: {}" [Val (VDict reservation)];
          Call "sfn.start_execution"
            [arn; VDict (forwarded msg reservation)]]
      ++ rest ∧
    started_runs rest = [].
Proof.
  intros Hclient Hrecords Hrecord Hses Hmail Hmsg Hfind arn.
  unfold receive_email. unfold_M. cbn.
  rewrite Hclient. cbn. rewrite Hrecords, Hrecord. cbn.
  rewrite Hses. cbn. rewrite Hmail. cbn. rewrite Hmsg. cbn.
  rewrite Hfind. cbn. fold arn. fold (forwarded msg reservation).
  unfold receiving_trace.
  destruct (sfn_start_execution lib arn (VDict (forwarded msg reservation)) w3)
    as [[execution|e] w4]; cbn.
  - destruct (execution !! "startDate") as [startDate|]; cbn.
    + destruct (execution !! "executionArn") as [executionArn|]; cbn.
      * eexists [_; _]. rewrite <- !app_assoc. cbn. done.
      * eexists [_]. rewrite <- !app_assoc. cbn. done.
    + exists []. rewrite <- !app_assoc. cbn. done.
  - exists []. rewrite <- !app_assoc. cbn. done.
Qed.

(** C9: when [email.find_name_and_confirmation_number] raises,
    [receive_email] logs the error and returns [None]: the exception does
    not reach the caller and [start_execution] is not called. *)
Theorem receive_email_extraction_failure {W} (lib : Lib W) (s : state W)
    records record ses_notification mail w1 msg w2 e w3 :
  boto3_client lib "stepfunctions" (world s) = (Ok tt, w1) →
  event s !! "Records" = Some records →
  subscript0 records = Return record →
  subscript record "ses" = Return ses_notification →
  subscript ses_notification "mail" = Return mail →
  email_SesMailNotification lib mail w1 = (Ok msg, w2) →
  email_find_name_and_confirmation_number lib msg w2 = (Err e, w3) →
  (receive_email lib s).1 = Return VNone ∧
  last (trace (receive_email lib s).2) =
    Some (Log ERROR "Error scraping email {}: {}"
            [Val (message_id msg); Exc (LibError e)]) ∧
  started_runs (trace (receive_email lib s).2) = started_runs (trace s).
Proof.
  intros Hclient Hrecords Hrecord Hses Hmail Hmsg Hfind.
  rewrite (receive_email_scrape_failed lib s records record ses_notification
             mail w1 msg w2 e w3) by done.
  cbn [fst snd trace]. split; [done|]. split.
  - by rewrite !app_assoc, last_snoc.
  - rewrite !started_runs_app. cbn. by rewrite app_nil_r.
Qed.

Lemma receive_email_extraction_failure_witness :
  (receive_email (Demo.lib (Demo.from_friend true))
     (Demo.start Demo.inbound)).1 = Return VNone ∧
  last (trace (receive_email (Demo.lib (Demo.from_friend true))
                 (Demo.start Demo.inbound)).2) =
    Some (Log ERROR "Error scraping email {}: {}"
            [Val (VStr "msg-1"); Exc (LibError "ReservationNotFoundError")]) ∧
  started_runs (trace (receive_email (Demo.lib (Demo.from_friend true))
                         (Demo.start Demo.inbound)).2) = [].
Proof.
  refine (receive_email_extraction_failure
    (Demo.lib (Demo.from_friend true)) (Demo.start Demo.inbound)
    (VList [Demo.record]) Demo.record Demo.ses_notification Demo.mail
    0 {| message_id := VStr "msg-1"; source := "friend@example.com" |} 0
    "ReservationNotFoundError" 0 _ _ _ _ _ _ _);
    reflexivity.
Defined.

Lemma string_append_cons (c : ascii) (a b : string) :
  String c a +:+ b = String c (a +:+ b).
Proof. reflexivity. Qed.

Lemma string_length_append (a b : string) :
  String.length (a +:+ b) = String.length a + String.length b.
Proof.
  induction a as [|c a IH]; [done|].
  rewrite string_append_cons. simpl. by rewrite IH.
Qed.

Lemma string_append_assoc (a b c : string) :
  (a +:+ b) +:+ c = a +:+ (b +:+ c).
Proof.
  induction a as [|x a IH]; [done|].
  rewrite !string_append_cons. by rewrite IH.
Qed.

Lemma substring_whole (b : string) : substring 0 (String.length b) b = b.
Proof. induction b as [|c b IH]; simpl; [done|by rewrite IH]. Qed.

Lemma substring_skip (a b : string) (n : nat) :
  substring (String.length a) n (a +:+ b) = substring 0 n b.
Proof.
  induction a as [|c a IH]; [done|].
  rewrite string_append_cons. simpl. apply IH.
Qed.

Lemma endswith_append (a b : string) : endswith (a +:+ b) b = true.
Proof.
  unfold endswith. rewrite string_length_append.
  apply andb_true_intro. split.
  - apply Nat.leb_le. lia.
  - replace (String.length a + String.length b - String.length b)
      with (String.length a) by lia.
    rewrite substring_skip, substring_whole. apply String.eqb_refl.
Qed.

Lemma forwarded_from_airline msg reservation :
  from_domain (source msg) "southwest.com" →
  forwarded msg reservation = reservation.
Proof.
  intros [local Hsrc]. unfold forwarded.
  rewrite Hsrc, <- string_append_assoc, endswith_append. done.
Qed.

(** C10: the reservation [receive_email] starts a run with is the one it
    extracted, with [email] set to the sender of the message unless that
    address ends in [southwest.com].  So [email] is set by [receive_email]
    only when the message does not come from the airline's domain; a
    message from [noreply@southwest.com] starts the run with the extracted
    reservation as it is, and one from [friend@example.com] starts it with
    [email] set to [friend@example.com]. *)
Theorem receive_email_notify_recipient {W} (lib : Lib W) (s : state W)
    records record ses_notification mail w1 msg w2 reservation w3 :
  boto3_client lib "stepfunctions" (world s) = (Ok tt, w1) →
  event s !! "Records" = Some records →
  subscript0 records = Return record →
  subscript record "ses" = Return ses_notification →
  subscript ses_notification "mail" = Return mail →
  email_SesMailNotification lib mail w1 = (Ok msg, w2) →
  email_find_name_and_confirmation_number lib msg w2 = (Ok reservation, w3) →
  let arn := os_getenv lib "STATE_MACHINE_ARN" w1 in
  let started := started_runs (trace (receive_email lib s).2) in
  started =
    started_runs (trace s) ++ [[arn; VDict (forwarded msg reservation)]] ∧
  (forwarded msg reservation ≠ reservation →
     ¬ from_domain (source msg) "southwest.com" ∧
     forwarded msg reservation = <["email" := VStr (source msg)]> reservation) ∧
  (source msg = "noreply@southwest.com" →
     started = started_runs (trace s) ++ [[arn; VDict reservation]]) ∧
  (source msg = "friend@example.com" →
     started =
       started_runs (trace s)
       ++ [[arn; VDict (<["email" := VStr "friend@example.com"]> reservation)]]).
Proof.
  intros Hclient Hrecords Hrecord Hses Hmail Hmsg Hfind arn started.
  destruct (receive_email_scraped lib s records record ses_notification
              mail w1 msg w2 reservation w3) as (rest & Htrace & Hrest);
    try done.
  assert (Hstarted : started =
    started_runs (trace s) ++ [[arn; VDict (forwarded msg reservation)]]).
  { unfold started. rewrite Htrace, !started_runs_app, Hrest. cbn. done. }
  split; [done|]. split; [|split].
  - intros Hset. split.
    + intros Hairline. by apply Hset, forwarded_from_airline.
    + unfold forwarded in *.
      by destruct (negb (endswith (source msg) "southwest.com")).
  - intros Hsrc. rewrite Hstarted. unfold forwarded. by rewrite Hsrc.
  - intros Hsrc. rewrite Hstarted. unfold forwarded. by rewrite Hsrc.
Qed.

Lemma receive_email_notify_recipient_witness :
  started_runs (trace (receive_email (Demo.lib (Demo.from_friend false))
                         (Demo.start Demo.inbound)).2) =
    [[VStr "arn:state-machine";
      VDict (<["email" := VStr "friend@example.com"]> Demo.found)]].
Proof.
  refine (proj2 (proj2 (proj2
    (receive_email_notify_recipient
      (Demo.lib (Demo.from_friend false)) (Demo.start Demo.inbound)
      (VList [Demo.record]) Demo.record Demo.ses_notification Demo.mail
      0 {| message_id := VStr "msg-1"; source := "friend@example.com" |} 0
      Demo.found 0 _ _ _ _ _ _ _))) _);
    reflexivity.
Defined.

(** ** The run *)

Lemma schedule_check_in_bare {W} (lib : Lib W)
    (s : state W) fn ln cn reservation w1 q w2 :
  event s !! "check_in_times" = None →
  identity (event s) fn ln cn →
  swa_get_reservation lib fn ln cn (world s) = (Ok reservation, w1) →
  swa_get_check_in_times_from_reservation lib reservation w1 = (Ok q, w2) →
  schedule_check_in lib s =
    schedule_check_in lib
      (State (<["check_in_times" := VDict {["remaining" := VList q]}]>
                (event s))
             w2 (trace s ++ planning_trace fn ln cn reservation)).
Proof.
  intros Hbare Hid Hres Htimes.
  rewrite (schedule_check_in_unplanned lib s) by by apply planned_false.
  unfold mbind, M_bind.
  rewrite (fetch_check_in_times_ok lib s fn ln cn reservation w1 q w2)
    by done.
  symmetry. apply schedule_check_in_planned.
  eapply planned_true. cbn. apply lookup_insert_eq.
Qed.

(** With a pending opportunity, [schedule_check_in] hands the world on as
    it found it. *)
Lemma schedule_check_in_planned_world {W} (lib : Lib W) (s : state W) q x :
  remaining_of (event s) = Some (q ++ [x]) →
  world (schedule_check_in lib s).2 = world s.
Proof.
  intros Hq.
  pose proof Hq as (cit & Hcit & Hrem)%remaining_of_Some.
  rewrite schedule_check_in_planned by by eapply planned_true.
  by rewrite (schedule_next_snoc s cit q x).
Qed.

(** One invocation on a planned state: the last opportunity is popped and,
    the Gateway check-in of this invocation succeeding, the signal tells
    whether more are pending. *)
Lemma invocation_planned {W} (lib : Lib W)
    (s : state W) fn ln cn q x resp w1 :
  identity (event s) fn ln cn →
  remaining_of (event s) = Some (q ++ [x]) →
  swa_check_in lib fn ln cn (world s) = (Ok resp, w1) →
  (invocation lib s).1 = signal_of q ∧
  identity (event (invocation lib s).2) fn ln cn ∧
  remaining_of (event (invocation lib s).2) = Some q ∧
  next_of (event (invocation lib s).2) = Some x.
Proof.
  intros Hid Hq Hok.
  pose proof Hq as (cit & Hcit & Hrem)%remaining_of_Some.
  unfold invocation.
  rewrite schedule_check_in_planned by by eapply planned_true.
  rewrite (schedule_next_snoc s cit q x) by done.
  cbn [world trace].
  set (ev' := scheduled (event s) cit q x).
  set (s1 := State ev' (world s) (trace s)).
  assert (Hid' : identity (event s1) fn ln cn)
    by by apply identity_scheduled.
  assert (Hq' : remaining_of (event s1) = Some q)
    by apply remaining_of_scheduled.
  assert (Hnext' : next_of ev' = Some x) by apply next_of_scheduled.
  pose proof (check_in_decides lib s1 fn ln cn resp w1 q Hid' Hq' Hok) as Hd.
  pose proof (check_in_keeps_event lib s1) as Hkeep.
  destruct (check_in lib s1) as [r s2]. cbn in Hd, Hkeep. subst r.
  destruct q as [|y q]; cbn.
  - rewrite Hkeep. done.
  - done.
Qed.

Lemma run_planned {W} (lib : Lib W) fn ln cn (q : list value) :
  ∀ (s : state W) x max,
    identity (event s) fn ln cn →
    remaining_of (event s) = Some (q ++ [x]) →
    S (length q) ≤ max →
    check_ins_succeed lib fn ln cn (S (length q)) s →
    (run lib max s).1 = repeat Continue (length q) ++ [Complete].
Proof.
  induction q as [|y q IH] using rev_ind; intros s x max Hid Hq Hmax Hok.
  - destruct max as [|max]; [cbn in Hmax; lia|].
    destruct Hok as ((resp & w1 & Hcall) & _).
    rewrite (schedule_check_in_planned_world lib s [] x Hq) in Hcall.
    destruct (invocation_planned lib s fn ln cn [] x resp w1 Hid Hq Hcall)
      as (Hsig & _).
    cbn. destruct (invocation lib s) as [sig s']. cbn in Hsig. by subst sig.
  - destruct max as [|max]; [cbn in Hmax; lia|].
    rewrite length_app in *. cbn [length] in *.
    rewrite Nat.add_1_r in *.
    destruct Hok as ((resp & w1 & Hcall) & Hrest).
    rewrite (schedule_check_in_planned_world lib s (q ++ [y]) x Hq) in Hcall.
    destruct (invocation_planned lib s fn ln cn (q ++ [y]) x resp w1
                Hid Hq Hcall)
      as (Hsig & Hid' & Hq' & _).
    specialize (IH (invocation lib s).2 y max Hid' Hq' ltac:(lia) Hrest).
    cbn [run]. destruct (invocation lib s) as [sig s'].
    cbn in Hsig, IH.
    assert (sig = Continue) as -> by (subst sig; by destruct q).
    destruct (run lib max s') as [signals s'']. cbn in IH. cbn [fst].
    by rewrite IH.
Qed.

Lemma invocation_bare {W} (lib : Lib W)
    (s : state W) fn ln cn reservation w1 q w2 :
  event s !! "check_in_times" = None →
  identity (event s) fn ln cn →
  swa_get_reservation lib fn ln cn (world s) = (Ok reservation, w1) →
  swa_get_check_in_times_from_reservation lib reservation w1 = (Ok q, w2) →
  invocation lib s =
    invocation lib
      (State (<["check_in_times" := VDict {["remaining" := VList q]}]>
                (event s))
             w2 (trace s ++ planning_trace fn ln cn reservation)).
Proof.
  intros Hbare Hid Hres Htimes. unfold invocation.
  by rewrite (schedule_check_in_bare lib s fn ln cn reservation w1 q w2).
Qed.

Lemma identity_populated ev fn ln cn v :
  identity ev fn ln cn → identity (<["check_in_times" := v]> ev) fn ln cn.
Proof.
  unfold identity. rewrite !lookup_insert_ne by done. done.
Qed.

Lemma remaining_of_populated ev q :
  remaining_of (<["check_in_times" := VDict {["remaining" := VList q]}]> ev)
    = Some q.
Proof.
  unfold remaining_of. rewrite lookup_insert_eq.
  by rewrite lookup_singleton_eq.
Qed.

Lemma run_bare {W} (lib : Lib W)
    (s : state W) fn ln cn reservation w1 q w2 (max : nat) :
  event s !! "check_in_times" = None →
  identity (event s) fn ln cn →
  swa_get_reservation lib fn ln cn (world s) = (Ok reservation, w1) →
  swa_get_check_in_times_from_reservation lib reservation w1 = (Ok q, w2) →
  run lib (S max) s =
    run lib (S max)
      (State (<["check_in_times" := VDict {["remaining" := VList q]}]>
                (event s))
             w2 (trace s ++ planning_trace fn ln cn reservation)).
Proof.
  intros Hbare Hid Hres Htimes. cbn [run].
  by rewrite (invocation_bare lib s fn ln cn reservation w1 q w2).
Qed.

Lemma check_ins_succeed_bare {W} (lib : Lib W)
    (s : state W) fn ln cn reservation w1 q w2 (n : nat) :
  event s !! "check_in_times" = None →
  identity (event s) fn ln cn →
  swa_get_reservation lib fn ln cn (world s) = (Ok reservation, w1) →
  swa_get_check_in_times_from_reservation lib reservation w1 = (Ok q, w2) →
  check_ins_succeed lib fn ln cn n s →
  check_ins_succeed lib fn ln cn n
    (State (<["check_in_times" := VDict {["remaining" := VList q]}]>
              (event s))
           w2 (trace s ++ planning_trace fn ln cn reservation)).
Proof.
  intros Hbare Hid Hres Htimes. destruct n as [|n]; [done|].
  cbn [check_ins_succeed].
  rewrite (invocation_bare lib s fn ln cn reservation w1 q w2) by done.
  by rewrite (schedule_check_in_bare lib s fn ln cn reservation w1 q w2).
Qed.

(** C1 (as the code has it): for an identity whose reservation yields
    [N ≥ 1] check-in times, and with the Gateway check-in of each of the
    [N] invocations succeeding, the run is [N] invocations of the pair: the
    first [N - 1] signal [Continue] and the [N]th is the first that signals
    completion. *)
Theorem run_takes_N_invocations {W} (lib : Lib W)
    (s : state W) fn ln cn reservation w1 q w2 (N max : nat) :
  event s !! "check_in_times" = None →
  identity (event s) fn ln cn →
  swa_get_reservation lib fn ln cn (world s) = (Ok reservation, w1) →
  swa_get_check_in_times_from_reservation lib reservation w1 = (Ok q, w2) →
  length q = N →
  1 ≤ N →
  check_ins_succeed lib fn ln cn N s →
  N ≤ max →
  (run lib max s).1 = repeat Continue (N - 1) ++ [Complete] ∧
  length (run lib max s).1 = N.
Proof.
  intros Hbare Hid Hres Htimes HN Hpos Hok Hmax.
  assert (Hrun : (run lib max s).1 = repeat Continue (N - 1) ++ [Complete]).
  { destruct q as [|x q _] using rev_ind; [cbn in HN; lia|].
    rewrite length_app in HN. cbn in HN.
    destruct max as [|max]; [lia|].
    rewrite (run_bare lib s fn ln cn reservation w1 (q ++ [x]) w2) by done.
    apply (check_ins_succeed_bare lib s fn ln cn reservation w1
             (q ++ [x]) w2 N Hbare Hid Hres Htimes) in Hok.
    replace (N - 1) with (length q) by lia.
    replace N with (S (length q)) in Hok by lia.
    apply (run_planned lib fn ln cn q _ x (S max)); [| |lia|done].
    - by apply identity_populated.
    - apply remaining_of_populated. }
  split; [done|].
  rewrite Hrun, length_app, repeat_length. cbn. lia.
Qed.

Lemma run_takes_N_invocations_witness :
  (run (Outage.only_for "ABC123" [VStr "T+9d"; VStr "T+5d"; VStr "T+2d"]) 10
     (Demo.start Demo.george_notified)).1 = [Continue; Continue; Complete].
Proof.
  refine (proj1 (run_takes_N_invocations
    (Outage.only_for "ABC123" [VStr "T+9d"; VStr "T+5d"; VStr "T+2d"])
    (Demo.start Demo.george_notified)
    (VStr "George") (VStr "Bush") (VStr "ABC123")
    (Demo.reservation (VStr "ABC123")) 1
    [VStr "T+9d"; VStr "T+5d"; VStr "T+2d"] 2 3 10 _ _ _ _ _ _ _ _));
    try reflexivity.
  - repeat split.
  - cbn. lia.
  - cbn [check_ins_succeed].
    repeat split; eexists _, _; reflexivity.
  - cbn. lia.
Defined.

(** C1 as stated fails in two ways.  A reservation with no check-in times
    ([N = 0]) ends its run in the first invocation with [IndexError]; and a
    Gateway check-in that raises ends a run of [N = 2] opportunities in its
    first invocation.  In both the run never signals completion. *)
Lemma run_without_completion :
  (run (Demo.lib (Demo.fine [])) 10 (Demo.start Demo.george)).1
    = [Fatal IndexError] ∧
  ¬ In Complete (run (Demo.lib (Demo.fine [])) 10 (Demo.start Demo.george)).1 ∧
  (run (Demo.lib (Demo.check_in_down Demo.scenario)) 10
     (Demo.start Demo.george)).1
    = [Fatal (LibError "CheckInError")] ∧
  ¬ In Complete
      (run (Demo.lib (Demo.check_in_down Demo.scenario)) 10
         (Demo.start Demo.george)).1.
Proof.
  assert (H0 : (run (Demo.lib (Demo.fine [])) 10 (Demo.start Demo.george)).1
               = [Fatal IndexError]) by (vm_compute; reflexivity).
  assert (H2 : (run (Demo.lib (Demo.check_in_down Demo.scenario)) 10
                  (Demo.start Demo.george)).1
               = [Fatal (LibError "CheckInError")])
    by (vm_compute; reflexivity).
  rewrite H0, H2.
  repeat split; try done; intros [?|[]]; discriminate.
Qed.

(** C2 (as the code has it): with the planner's queue [[T+5d; T+2d]] the
    first invocation pops the last element, [T+2d], into [next], leaves
    [[T+5d]] pending and, its Gateway check-in succeeding, signals
    [Continue]; the second pops [T+5d], leaves nothing pending and, its
    Gateway check-in succeeding, signals completion. *)
Theorem two_opportunities_run {W} (lib : Lib W)
    (s : state W) fn ln cn reservation w1 w2 :
  event s !! "check_in_times" = None →
  identity (event s) fn ln cn →
  swa_get_reservation lib fn ln cn (world s) = (Ok reservation, w1) →
  swa_get_check_in_times_from_reservation lib reservation w1 =
    (Ok [VStr "T+5d"; VStr "T+2d"], w2) →
  check_ins_succeed lib fn ln cn 2 s →
  let first := invocation lib s in
  let second := invocation lib first.2 in
  first.1 = Continue ∧
  next_of (event first.2) = Some (VStr "T+2d") ∧
  remaining_of (event first.2) = Some [VStr "T+5d"] ∧
  second.1 = Complete ∧
  next_of (event second.2) = Some (VStr "T+5d") ∧
  remaining_of (event second.2) = Some [].
Proof.
  intros Hbare Hid Hres Htimes Hok first second.
  unfold second, first. clear first second.
  apply (check_ins_succeed_bare lib s fn ln cn reservation w1
           [VStr "T+5d"; VStr "T+2d"] w2 2 Hbare Hid Hres Htimes) in Hok.
  rewrite (invocation_bare lib s fn ln cn reservation w1
             [VStr "T+5d"; VStr "T+2d"] w2) by done.
  set (s0 := State _ w2 _) in *.
  assert (Hid0 : identity (event s0) fn ln cn)
    by by apply identity_populated.
  assert (Hq0 : remaining_of (event s0) = Some ([VStr "T+5d"] ++ [VStr "T+2d"]))
    by apply remaining_of_populated.
  destruct Hok as ((resp1 & w3 & Hcall1) & (resp2 & w4 & Hcall2) & _).
  rewrite (schedule_check_in_planned_world lib s0 _ _ Hq0) in Hcall1.
  destruct (invocation_planned lib s0 fn ln cn [VStr "T+5d"] (VStr "T+2d")
              resp1 w3 Hid0 Hq0 Hcall1)
    as (Hsig1 & Hid1 & Hq1 & Hnext1).
  rewrite (schedule_check_in_planned_world lib (invocation lib s0).2
             [] (VStr "T+5d") Hq1) in Hcall2.
  destruct (invocation_planned lib (invocation lib s0).2 fn ln cn
              [] (VStr "T+5d") resp2 w4 Hid1 Hq1 Hcall2)
    as (Hsig2 & _ & Hq2 & Hnext2).
  done.
Qed.

Lemma two_opportunities_run_witness :
  (invocation (Outage.only_for "ABC123" Demo.scenario)
     (Demo.start Demo.george)).1 = Continue ∧
  next_of (event (invocation (Outage.only_for "ABC123" Demo.scenario)
                    (Demo.start Demo.george)).2) = Some (VStr "T+2d").
Proof.
  destruct (two_opportunities_run (Outage.only_for "ABC123" Demo.scenario)
    (Demo.start Demo.george)
    (VStr "George") (VStr "Bush") (VStr "ABC123")
    (Demo.reservation (VStr "ABC123")) 1 2) as (H1 & H2 & _);
    try reflexivity.
  - repeat split.
  - cbn [check_ins_succeed].
    repeat split; eexists _, _; reflexivity.
  - exact (conj H1 H2).
Defined.

(** C2 as stated fails: the first invocation does not pop [T+5d]; it
    pops [T+2d] and leaves [[T+5d]] pending. *)
Lemma first_pop_is_not_the_head :
  next_of (event (schedule_check_in (Demo.lib (Demo.fine Demo.scenario))
                    (Demo.start Demo.george)).2)
    = Some (VStr "T+2d") ∧
  remaining_of (event (schedule_check_in (Demo.lib (Demo.fine Demo.scenario))
                         (Demo.start Demo.george)).2)
    = Some [VStr "T+5d"] ∧
  next_of (event (schedule_check_in (Demo.lib (Demo.fine Demo.scenario))
                    (Demo.start Demo.george)).2)
    ≠ Some (VStr "T+5d") ∧
  remaining_of (event (schedule_check_in (Demo.lib (Demo.fine Demo.scenario))
                         (Demo.start Demo.george)).2)
    ≠ Some [VStr "T+2d"].
Proof.
  assert (Hn : next_of
                 (event (schedule_check_in
                           (Demo.lib (Demo.fine Demo.scenario))
                           (Demo.start Demo.george)).2)
               = Some (VStr "T+2d"))
    by (vm_compute; reflexivity).
  assert (Hr : remaining_of
                 (event (schedule_check_in
                           (Demo.lib (Demo.fine Demo.scenario))
                           (Demo.start Demo.george)).2)
               = Some [VStr "T+5d"])
    by (vm_compute; reflexivity).
  rewrite Hn, Hr. repeat split; discriminate.
Qed.

(** ** Edge and error behaviour of [schedule_check_in] *)

Lemma frames_ret {W A} (a : A) : frames_event (mret a : M W A).
Proof. by intros s k Hk. Qed.

Lemma frames_raise {W A} (e : exn) : frames_event (raise e : M W A).
Proof. by intros s k Hk. Qed.

Lemma frames_lift {W A} (r : result A) : frames_event (lift r : M W A).
Proof. by intros s k Hk. Qed.

Lemma frames_log {W} lvl msg args :
  frames_event (log lvl msg args : M W unit).
Proof. by intros s k Hk. Qed.

Lemma frames_get_event {W} : frames_event (get_event : M W _).
Proof. by intros s k Hk. Qed.

Lemma frames_call {W A} f args (c : W → answer A * W) :
  frames_event (call f args c).
Proof. intros s k Hk. unfold call. by destruct (c (world s)) as [[a|e] w]. Qed.

Lemma frames_bind {W A B} (m : M W A) (f : A → M W B) :
  frames_event m → (∀ a, frames_event (f a)) → frames_event (m ≫= f).
Proof.
  intros Hm Hf s k Hk. unfold mbind, M_bind.
  specialize (Hm s k Hk). destruct (m s) as [[a|e] s']; cbn in *; [|done].
  by rewrite Hf.
Qed.

Lemma frames_event_item {W} k : frames_event (event_item k : M W value).
Proof.
  apply frames_bind; [apply frames_get_event|intros; apply frames_lift].
Qed.

Lemma frames_event_store {W} x :
  frames_event (event_store "check_in_times" x : M W unit).
Proof.
  intros s k Hk. unfold event_store. unfold_M. cbn.
  by rewrite lookup_insert_ne.
Qed.

Create HintDb frames.

#[global] Hint Resolve frames_ret frames_raise frames_lift frames_log
  frames_get_event frames_call frames_event_item frames_event_store : frames.

Ltac frames :=
  repeat first
    [ solve [auto with frames]
    | apply frames_bind; [|intros]
    | match goal with |- frames_event (let (_, _) := ?p in _) => destruct p end ].

Lemma schedule_next_frames {W} : frames_event (schedule_next : M W value).
Proof. unfold schedule_next. frames. Qed.

Lemma fetch_check_in_times_frames {W} (lib : Lib W) :
  frames_event (fetch_check_in_times lib).
Proof. unfold fetch_check_in_times. frames. Qed.

Lemma schedule_check_in_cases {W} (lib : Lib W) (s : state W) :
  schedule_check_in lib s =
    if planned s then schedule_next s
    else (fetch_check_in_times lib ≫= λ _, schedule_next) s.
Proof.
  destruct (planned s) eqn:Hp.
  - by apply schedule_check_in_planned.
  - by apply schedule_check_in_unplanned.
Qed.

(** X1: on an event without [check_in_times] that lacks one of
    [first_name], [last_name], [confirmation_number], [schedule_check_in]
    raises [KeyError] for the first one missing, before it writes to the
    event, logs or calls the library. *)
Theorem schedule_check_in_missing_field {W} (lib : Lib W)
    (s : state W) (k : string) :
  event s !! "check_in_times" = None →
  missing_field (event s) = Some k →
  schedule_check_in lib s = (Raise (KeyError (VStr k)), s).
Proof.
  intros Hbare Hk.
  rewrite schedule_check_in_unplanned by by apply planned_false.
  unfold fetch_check_in_times. unfold_M. cbn.
  unfold missing_field in Hk.
  destruct (event s !! "first_name"); cbn; [|by injection Hk as <-].
  destruct (event s !! "last_name"); cbn; [|by injection Hk as <-].
  destruct (event s !! "confirmation_number"); cbn;
    [done|by injection Hk as <-].
Qed.

Lemma schedule_check_in_missing_field_witness :
  schedule_check_in (Demo.lib (Demo.fine Demo.scenario))
    (Demo.start (delete "last_name" Demo.george)) =
  (Raise (KeyError (VStr "last_name")),
   Demo.start (delete "last_name" Demo.george)).
Proof.
  refine (schedule_check_in_missing_field
    (Demo.lib (Demo.fine Demo.scenario))
    (Demo.start (delete "last_name" Demo.george)) "last_name" _ _);
    reflexivity.
Defined.

Lemma schedule_next_no_remaining {W} (s : state W) :
  event s !! "check_in_times" = Some (VDict ∅) →
  schedule_next s = (Raise (KeyError (VStr "remaining")), s).
Proof.
  intros Hcit. unfold schedule_next. unfold_M. cbn. rewrite Hcit. cbn.
  by rewrite lookup_empty.
Qed.

Lemma fetch_check_in_times_fails {W} (lib : Lib W)
    (s : state W) fn ln cn e :
  identity (event s) fn ln cn →
  planning_fails lib fn ln cn (world s) e →
  (fetch_check_in_times lib s).1 = Raise (LibError e) ∧
  event (fetch_check_in_times lib s).2 =
    <["check_in_times" := VDict ∅]> (event s).
Proof.
  intros (Hfn & Hln & Hcn) Hfail.
  unfold fetch_check_in_times. unfold_M. cbn.
  rewrite Hfn. cbn. rewrite Hln. cbn. rewrite Hcn. cbn.
  destruct Hfail as [(w1 & Hres)|(r & w1 & w2 & Hres & Htimes)].
  - rewrite Hres. cbn. done.
  - rewrite Hres. cbn. rewrite Htimes. cbn. done.
Qed.

(** X2: when the reservation lookup or the computation of the check-in
    times raises, [schedule_check_in] on a new check-in ends with that
    exception.  Nothing is popped: the event is left with the empty
    [check_in_times] written before the lookup, without [remaining] or
    [next]. *)
Theorem schedule_check_in_lookup_failure {W} (lib : Lib W)
    (s : state W) fn ln cn e :
  event s !! "check_in_times" = None →
  identity (event s) fn ln cn →
  planning_fails lib fn ln cn (world s) e →
  (schedule_check_in lib s).1 = Raise (LibError e) ∧
  event (schedule_check_in lib s).2 =
    <["check_in_times" := VDict ∅]> (event s) ∧
  remaining_of (event (schedule_check_in lib s).2) = None ∧
  next_of (event (schedule_check_in lib s).2) = None.
Proof.
  intros Hbare Hid Hfail.
  destruct (fetch_check_in_times_fails lib s fn ln cn e Hid Hfail)
    as (Hres & Hev).
  rewrite schedule_check_in_unplanned by by apply planned_false.
  unfold mbind, M_bind.
  destruct (fetch_check_in_times lib s) as [r s1]. cbn in Hres, Hev.
  subst r. cbn. rewrite Hev.
  unfold remaining_of, next_of. rewrite lookup_insert_eq.
  by rewrite lookup_empty.
Qed.

Lemma schedule_check_in_lookup_failure_witness :
  (schedule_check_in Outage.no_reservation (Demo.start Demo.george)).1 =
    Raise (LibError "ReservationNotFoundError") ∧
  event (schedule_check_in Outage.no_reservation (Demo.start Demo.george)).2 =
    <["check_in_times" := VDict ∅]> Demo.george.
Proof.
  destruct (schedule_check_in_lookup_failure Outage.no_reservation
    (Demo.start Demo.george)
    (VStr "George") (VStr "Bush") (VStr "ABC123")
    "ReservationNotFoundError") as (H1 & H2 & _);
    try reflexivity.
  - repeat split.
  - left. exists 1. reflexivity.
  - exact (conj H1 H2).
Defined.

(** X3: calling [schedule_check_in] again on the event a failed lookup
    left behind does not look the reservation up again: the event now has
    [check_in_times], so the call goes for the pop and raises [KeyError]
    for [remaining], leaving the state as it is. *)
Theorem schedule_check_in_after_failed_lookup {W} (lib : Lib W)
    (s : state W) fn ln cn e :
  event s !! "check_in_times" = None →
  identity (event s) fn ln cn →
  planning_fails lib fn ln cn (world s) e →
  schedule_check_in lib (schedule_check_in lib s).2 =
    (Raise (KeyError (VStr "remaining")), (schedule_check_in lib s).2).
Proof.
  intros Hbare Hid Hfail.
  destruct (fetch_check_in_times_fails lib s fn ln cn e Hid Hfail)
    as (Hres & Hev).
  rewrite (schedule_check_in_unplanned lib s) by by apply planned_false.
  unfold mbind, M_bind.
  destruct (fetch_check_in_times lib s) as [r s1]. cbn in Hres, Hev.
  subst r.
  assert (Hcit : event s1 !! "check_in_times" = Some (VDict ∅))
    by (rewrite Hev; apply lookup_insert_eq).
  rewrite schedule_check_in_planned by by eapply planned_true.
  by apply schedule_next_no_remaining.
Qed.

Lemma schedule_check_in_after_failed_lookup_witness :
  schedule_check_in Outage.no_reservation
    (schedule_check_in Outage.no_reservation (Demo.start Demo.george)).2 =
  (Raise (KeyError (VStr "remaining")),
   (schedule_check_in Outage.no_reservation (Demo.start Demo.george)).2).
Proof.
  refine (schedule_check_in_after_failed_lookup Outage.no_reservation
    (Demo.start Demo.george)
    (VStr "George") (VStr "Bush") (VStr "ABC123")
    "ReservationNotFoundError" _ _ _);
    try reflexivity.
  - repeat split.
  - left. exists 1. reflexivity.
Defined.

(** The pop part either returns the event it has updated or raises
    without having done anything. *)
Lemma schedule_next_outcome {W} (s : state W) :
  (∃ ev', schedule_next s =
            (Return (VDict ev'), State ev' (world s) (trace s))) ∨
  (∃ e, schedule_next s = (Raise e, s)).
Proof.
  unfold schedule_next. unfold_M. cbn.
  destruct (event s !! "check_in_times") as [[| | | | |cit]|]; cbn;
    try (right; eauto; fail).
  destruct (cit !! "remaining") as [[| | | |l|d]|]; cbn;
    try (right; eauto; fail).
  destruct (last l); cbn; [|right; eauto].
  rewrite lookup_insert_eq. cbn. left. eauto.
Qed.

(** X4: with [check_in_times] in the event, [schedule_check_in] never
    looks anything up: it makes no library call and logs nothing, whatever
    the event holds, and when it raises it has not changed the event. *)
Theorem schedule_check_in_planned_is_local {W} (lib : Lib W)
    (s : state W) (v : value) :
  event s !! "check_in_times" = Some v →
  world (schedule_check_in lib s).2 = world s ∧
  trace (schedule_check_in lib s).2 = trace s ∧
  (∀ e, (schedule_check_in lib s).1 = Raise e →
        (schedule_check_in lib s).2 = s).
Proof.
  intros Hcit.
  rewrite schedule_check_in_planned by by eapply planned_true.
  destruct (schedule_next_outcome s) as [(ev' & ->)|(e' & ->)]; cbn.
  - repeat split. intros e. discriminate.
  - done.
Qed.

Lemma schedule_check_in_planned_is_local_witness :
  world (schedule_check_in Outage.no_reservation
           (Demo.start (<["check_in_times" := VStr "soon"]> Demo.george))).2
    = 0 ∧
  trace (schedule_check_in Outage.no_reservation
           (Demo.start (<["check_in_times" := VStr "soon"]> Demo.george))).2
    = [].
Proof.
  destruct (schedule_check_in_planned_is_local Outage.no_reservation
    (Demo.start (<["check_in_times" := VStr "soon"]> Demo.george))
    (VStr "soon")) as (H1 & H2 & _).
  - reflexivity.
  - exact (conj H1 H2).
Defined.

(** X5: [schedule_check_in] writes to the event under [check_in_times]
    only: every other field of the event (the identity, the recipient) is
    after the call what it was before, whether the call returns or raises;
    and what it returns is the event itself, as it is after the call. *)
Theorem schedule_check_in_frame {W} (lib : Lib W) (s : state W) :
  (∀ k, k ≠ "check_in_times" →
        event (schedule_check_in lib s).2 !! k = event s !! k) ∧
  (∀ v, (schedule_check_in lib s).1 = Return v →
        v = VDict (event (schedule_check_in lib s).2)).
Proof.
  rewrite schedule_check_in_cases. split.
  - intros k Hk. destruct (planned s).
    + by apply schedule_next_frames.
    + apply (frames_bind (fetch_check_in_times lib) (λ _, schedule_next));
        [apply fetch_check_in_times_frames| |done].
      intros _. apply schedule_next_frames.
  - intros v. destruct (planned s).
    + destruct (schedule_next_outcome s) as [(ev' & ->)|(e' & ->)]; cbn;
        congruence.
    + unfold mbind, M_bind.
      destruct (fetch_check_in_times lib s) as [[[]|e] s1]; cbn; [|done].
      destruct (schedule_next_outcome s1) as [(ev' & ->)|(e' & ->)]; cbn;
        congruence.
Qed.

Lemma schedule_check_in_frame_witness :
  event (schedule_check_in (Demo.lib (Demo.fine Demo.scenario))
           (Demo.start Demo.george_notified)).2 !! "email" =
    Some (VStr "gwb@example.com").
Proof.
  rewrite (proj1 (schedule_check_in_frame
                    (Demo.lib (Demo.fine Demo.scenario))
                    (Demo.start Demo.george_notified)) "email");
    [reflexivity|discriminate].
Defined.

Lemma repeatedly_S {W A} (m : M W A) (n : nat) (s : state W) :
  repeatedly m (S n) s =
    match m s with
    | (Return a, s1) =>
        match repeatedly m n s1 with
        | (Return l, s2) => (Return (a :: l), s2)
        | (Raise e, s2) => (Raise e, s2)
        end
    | (Raise e, s1) => (Raise e, s1)
    end.
Proof.
  cbn [repeatedly]. unfold mbind, M_bind, mret, M_ret.
  destruct (m s) as [[a|e] s1]; [|done].
  by destruct (repeatedly m n s1) as [[l|e] s2].
Qed.

(** X6: successive calls of [schedule_check_in], each on the state the
    one before returned, take the pending opportunities from the end of
    the list, one per call and each once: after as many calls as [popped]
    has elements the [next] fields returned are [popped] read backwards
    and the rest of the list is still pending; one call more than there
    are opportunities ends with [IndexError]. *)
Theorem schedule_check_in_repeated {W} (lib : Lib W)
    (s : state W) (q popped : list value) :
  remaining_of (event s) = Some (q ++ popped) →
  (∃ returned,
     (repeatedly (schedule_check_in lib) (length popped) s).1 =
       Return returned ∧
     next_in <$> returned = Some <$> rev popped ∧
     remaining_of
       (event (repeatedly (schedule_check_in lib) (length popped) s).2) =
       Some q) ∧
  (q = [] →
     (repeatedly (schedule_check_in lib) (S (length popped)) s).1 =
       Raise IndexError).
Proof.
  revert s. induction popped as [|x popped IH] using rev_ind; intros s Hq.
  - rewrite app_nil_r in Hq. split.
    + exists []. cbn. done.
    + intros ->. rewrite repeatedly_S.
      rewrite schedule_check_in_planned.
      * by rewrite schedule_next_exhausted.
      * apply remaining_of_Some in Hq as (cit & Hcit & _).
        by eapply planned_true.
  - rewrite app_assoc in Hq.
    assert (Hplanned : planned s = true).
    { pose proof Hq as (cit & Hcit & _)%remaining_of_Some.
      by eapply planned_true. }
    destruct (schedule_next_pop s (q ++ popped) x Hq)
      as (ev' & Hnext & Hrem & Hx & _).
    set (s1 := State ev' (world s) (trace s)) in *.
    destruct (IH s1 Hrem) as ((returned & Hret & Hnexts & Hleft) & Hend).
    rewrite length_app, Nat.add_1_r. split.
    + rewrite repeatedly_S, schedule_check_in_planned, Hnext by done.
      destruct (repeatedly (schedule_check_in lib) (length popped) s1)
        as [r s2]. cbn in Hret, Hleft. subst r.
      exists (VDict ev' :: returned). cbn.
      rewrite rev_app_distr. cbn. by rewrite Hx, Hnexts.
    + intros Hnil. specialize (Hend Hnil).
      rewrite repeatedly_S, schedule_check_in_planned, Hnext by done.
      destruct (repeatedly (schedule_check_in lib) (S (length popped)) s1)
        as [r s2]. cbn in Hend. by subst r.
Qed.

Lemma schedule_check_in_repeated_witness :
  ∃ returned,
    (repeatedly (schedule_check_in (Demo.lib (Demo.fine []))) 2
       Demo.two_pending).1 = Return returned ∧
    next_in <$> returned = [Some (VStr "T+2d"); Some (VStr "T+5d")] ∧
    remaining_of
      (event (repeatedly (schedule_check_in (Demo.lib (Demo.fine []))) 2
                Demo.two_pending).2) = Some [].
Proof.
  refine (proj1 (schedule_check_in_repeated (Demo.lib (Demo.fine []))
    Demo.two_pending [] [VStr "T+5d"; VStr "T+2d"] _)).
  reflexivity.
Defined.

(** ** Edge and error behaviour of [check_in] *)

Lemma calls_of_app (t1 t2 : list io) :
  calls_of (t1 ++ t2) = calls_of t1 ++ calls_of t2.
Proof.
  induction t1 as [|[lvl msg args|f args] t1 IH]; cbn; [done|done|].
  by rewrite IH.
Qed.

Lemma count_calls_app f (t1 t2 : list io) :
  count_calls f (t1 ++ t2) = count_calls f t1 + count_calls f t2.
Proof.
  unfold count_calls. by rewrite calls_of_app, filter_app, length_app.
Qed.

(** Once the Gateway call has succeeded: the calls [check_in] has made
    when it ends, and what it ends with. *)
Ltac tail_cases s :=
  destruct (event s !! "check_in_times") as [[| | | | |?cit]|]; cbn;
  try match goal with
      | |- context [?c !! "remaining"] =>
          destruct (c !! "remaining") as [[| | |?str|?l|?d]|]; cbn
      end;
  try match goal with
      | |- context [match ?n with 0 => false | S _ => true end] =>
          destruct n; cbn
      end;
  rewrite ?calls_of_app; cbn; rewrite ?app_nil_r, <- ?app_assoc; done.

Lemma check_in_after_gateway {W} (lib : Lib W)
    (s : state W) fn ln cn resp w1 :
  identity (event s) fn ln cn →
  swa_check_in lib fn ln cn (world s) = (Ok resp, w1) →
  (check_in lib s).1 = continuation (event s) ∧
  calls_of (trace (check_in lib s).2) =
    calls_of (trace s)
    ++ check_in_calls fn ln cn (default VNone (event s !! "email")).
Proof.
  intros (Hfn & Hln & Hcn) Hgw.
  unfold check_in, continuation, check_in_calls. unfold_M. cbn.
  rewrite Hfn. cbn. rewrite Hln. cbn. rewrite Hcn. cbn.
  rewrite Hgw. cbn.
  destruct (truthy (default VNone (event s !! "email"))); cbn.
  - destruct (swa_email_boarding_pass lib fn ln cn
                (default VNone (event s !! "email")) w1) as [[r|e] w2]; cbn.
    + tail_cases s.
    + tail_cases s.
  - tail_cases s.
Qed.



(** X7: on an event that lacks one of [first_name], [last_name],
    [confirmation_number], [check_in] raises [KeyError] for the first one
    missing; the Gateway is not called and nothing is logged. *)
Theorem check_in_missing_field {W} (lib : Lib W) (s : state W) (k : string) :
  missing_field (event s) = Some k →
  check_in lib s = (Raise (KeyError (VStr k)), s).
Proof.
  intros Hk. unfold check_in. unfold_M. cbn.
  unfold missing_field in Hk.
  destruct (event s !! "first_name"); cbn; [|by injection Hk as <-].
  destruct (event s !! "last_name"); cbn; [|by injection Hk as <-].
  destruct (event s !! "confirmation_number"); cbn;
    [done|by injection Hk as <-].
Qed.

Lemma check_in_missing_field_witness :
  check_in (Demo.lib (Demo.fine []))
    (Demo.start (delete "confirmation_number" Demo.george)) =
  (Raise (KeyError (VStr "confirmation_number")),
   Demo.start (delete "confirmation_number" Demo.george)).
Proof.
  refine (check_in_missing_field (Demo.lib (Demo.fine []))
    (Demo.start (delete "confirmation_number" Demo.george))
    "confirmation_number" _).
  reflexivity.
Defined.

Lemma count_check_in_calls fn ln cn email :
  length (filter (λ c, String.eqb c.1 "swa.check_in" = true)
            (check_in_calls fn ln cn email)) = 1.
Proof. unfold check_in_calls. by destruct (truthy email). Qed.

Lemma count_email_calls fn ln cn email :
  length (filter (λ c, String.eqb c.1 "swa.email_boarding_pass" = true)
            (check_in_calls fn ln cn email)) = if truthy email then 1 else 0.
Proof. unfold check_in_calls. by destruct (truthy email). Qed.

(** X8: when the Gateway check-in succeeds, [check_in] has made exactly
    one [swa.check_in] call, with the three identity fields, and after it
    one [swa.email_boarding_pass] call if [event.get('email')] is truthy and
    none otherwise.  This holds whatever [check_in_times] holds and whether
    the notification is delivered or not. *)
Theorem check_in_calls_made {W} (lib : Lib W)
    (s : state W) fn ln cn resp w1 :
  identity (event s) fn ln cn →
  swa_check_in lib fn ln cn (world s) = (Ok resp, w1) →
  calls_of (trace (check_in lib s).2) =
    calls_of (trace s)
    ++ check_in_calls fn ln cn (default VNone (event s !! "email")) ∧
  count_calls "swa.check_in" (trace (check_in lib s).2) =
    S (count_calls "swa.check_in" (trace s)) ∧
  count_calls "swa.email_boarding_pass" (trace (check_in lib s).2) =
    count_calls "swa.email_boarding_pass" (trace s)
    + (if truthy (default VNone (event s !! "email")) then 1 else 0).
Proof.
  intros Hid Hgw.
  destruct (check_in_after_gateway lib s fn ln cn resp w1 Hid Hgw)
    as (_ & Hcalls).
  split; [done|].
  unfold count_calls. rewrite Hcalls, !filter_app, !length_app.
  rewrite count_check_in_calls, count_email_calls. split; [lia|done].
Qed.

Lemma check_in_calls_made_witness :
  calls_of (trace (check_in (Demo.lib (Demo.mailer_down []))
                     Demo.one_pending).2) =
    [("swa.check_in", [VStr "George"; VStr "Bush"; VStr "ABC123"]);
     ("swa.email_boarding_pass",
      [VStr "George"; VStr "Bush"; VStr "ABC123"; VStr "gwb@example.com"])].
Proof.
  refine (proj1 (check_in_calls_made (Demo.lib (Demo.mailer_down []))
    Demo.one_pending
    (VStr "George") (VStr "Bush") (VStr "ABC123") (VStr "OK") 1 _ _));
    try reflexivity.
  repeat split.
Defined.

(** X9: [check_in] reads [check_in_times] only after the Gateway call.
    Called on an event without [check_in_times] (a bare identity), it
    checks the reservation in, sends the notification if there is a
    recipient, and then raises [KeyError] for [check_in_times]. *)
Theorem check_in_without_check_in_times {W} (lib : Lib W)
    (s : state W) fn ln cn resp w1 :
  identity (event s) fn ln cn →
  event s !! "check_in_times" = None →
  swa_check_in lib fn ln cn (world s) = (Ok resp, w1) →
  (check_in lib s).1 = Raise (KeyError (VStr "check_in_times")) ∧
  calls_of (trace (check_in lib s).2) =
    calls_of (trace s)
    ++ check_in_calls fn ln cn (default VNone (event s !! "email")).
Proof.
  intros Hid Hbare Hgw.
  destruct (check_in_after_gateway lib s fn ln cn resp w1 Hid Hgw)
    as (Hres & Hcalls).
  split; [|done].
  rewrite Hres. unfold continuation. cbn. by rewrite Hbare.
Qed.

Lemma check_in_without_check_in_times_witness :
  (check_in (Demo.lib (Demo.fine [])) (Demo.start Demo.george_notified)).1 =
    Raise (KeyError (VStr "check_in_times")) ∧
  calls_of (trace (check_in (Demo.lib (Demo.fine []))
                     (Demo.start Demo.george_notified)).2) =
    [("swa.check_in", [VStr "George"; VStr "Bush"; VStr "ABC123"]);
     ("swa.email_boarding_pass",
      [VStr "George"; VStr "Bush"; VStr "ABC123"; VStr "gwb@example.com"])].
Proof.
  refine (check_in_without_check_in_times (Demo.lib (Demo.fine []))
    (Demo.start Demo.george_notified)
    (VStr "George") (VStr "Bush") (VStr "ABC123") (VStr "OK") 1 _ _ _);
    try reflexivity.
  repeat split.
Defined.

(** ** Edge and error behaviour of [receive_email] *)

(** [receive_email] up to the answer of [start_execution]. *)
Lemma receive_email_asks {W} (lib : Lib W) (s : state W)
    ses_notification mail w1 msg w2 reservation w3 answer w4 :
  boto3_client lib "stepfunctions" (world s) = (Ok tt, w1) →
  ses_notification_of (event s) = Return ses_notification →
  subscript ses_notification "mail" = Return mail →
  email_SesMailNotification lib mail w1 = (Ok msg, w2) →
  email_find_name_and_confirmation_number lib msg w2 = (Ok reservation, w3) →
  let arn := os_getenv lib "STATE_MACHINE_ARN" w1 in
  sfn_start_execution lib arn (VDict (forwarded msg reservation)) w3 =
    (answer, w4) →
  let s4 := State (event s) w4
    (trace s ++ starting_trace arn ses_notification mail msg reservation) in
  receive_email lib s =
    match answer with
    | Ok execution =>
        (startDate ← lift (subscript (VDict execution) "startDate");
         log DEBUG "State machine started at: {}" [Val startDate];;
         executionArn ← lift (subscript (VDict execution) "executionArn");
         log DEBUG "Execution ARN: {}" [Val executionArn];;
         mret (VDict (delete "startDate" execution))) s4
    | Err e => (Raise (LibError e), s4)
    end.
Proof.
  intros Hclient Hses Hmail Hmsg Hfind arn Hstart s4.
  unfold ses_notification_of in Hses. cbn in Hses.
  destruct (event s !! "Records") as [records|] eqn:Hrecords; [|done].
  cbn in Hses.
  destruct (subscript0 records) as [record|] eqn:Hrecord; [|done].
  unfold receive_email. unfold_M. cbn.
  rewrite Hclient. cbn. rewrite Hrecords, Hrecord. cbn.
  rewrite Hses. cbn. rewrite Hmail. cbn. rewrite Hmsg. cbn.
  rewrite Hfind. cbn. fold arn. fold (forwarded msg reservation).
  rewrite Hstart. unfold s4, starting_trace, receiving_trace.
  rewrite <- !app_assoc. cbn.
  destruct answer as [execution|e]; cbn; done.
Qed.

(** X10: when the run is started and its handle has [startDate] and
    [executionArn], [receive_email] has asked for exactly one run, with the
    reservation it passes on, and returns the handle without [startDate]
    and with every other field as the service gave it. *)
Theorem receive_email_returns_handle {W} (lib : Lib W) (s : state W)
    ses_notification mail w1 msg w2 reservation w3 execution w4
    startDate executionArn :
  boto3_client lib "stepfunctions" (world s) = (Ok tt, w1) →
  ses_notification_of (event s) = Return ses_notification →
  subscript ses_notification "mail" = Return mail →
  email_SesMailNotification lib mail w1 = (Ok msg, w2) →
  email_find_name_and_confirmation_number lib msg w2 = (Ok reservation, w3) →
  sfn_start_execution lib (os_getenv lib "STATE_MACHINE_ARN" w1)
    (VDict (forwarded msg reservation)) w3 = (Ok execution, w4) →
  execution !! "startDate" = Some startDate →
  execution !! "executionArn" = Some executionArn →
  ∃ handle,
    (receive_email lib s).1 = Return (VDict handle) ∧
    handle !! "startDate" = None ∧
    (∀ k, k ≠ "startDate" → handle !! k = execution !! k) ∧
    started_runs (trace (receive_email lib s).2) =
      started_runs (trace s)
      ++ [[os_getenv lib "STATE_MACHINE_ARN" w1;
           VDict (forwarded msg reservation)]].
Proof.
  intros Hclient Hses Hmail Hmsg Hfind Hstart Hdate Harn.
  rewrite (receive_email_asks lib s ses_notification mail w1 msg w2
             reservation w3 (Ok execution) w4) by done.
  unfold_M. cbn. rewrite Hdate. cbn. rewrite Harn. cbn.
  exists (delete "startDate" execution).
  split; [done|]. split; [apply lookup_delete_eq|].
  split; [intros k Hk; by apply lookup_delete_ne|].
  unfold starting_trace, receiving_trace.
  rewrite !started_runs_app. cbn. rewrite ?app_nil_r. done.
Qed.

Lemma receive_email_returns_handle_witness :
  ∃ handle,
    (receive_email (Demo.lib (Demo.from_friend false))
       (Demo.start Demo.inbound)).1 = Return (VDict handle) ∧
    handle !! "startDate" = None ∧
    (∀ k, k ≠ "startDate" → handle !! k = Demo.execution !! k) ∧
    started_runs (trace (receive_email (Demo.lib (Demo.from_friend false))
                           (Demo.start Demo.inbound)).2) =
      [[VStr "arn:state-machine";
        VDict (<["email" := VStr "friend@example.com"]> Demo.found)]].
Proof.
  refine (receive_email_returns_handle
    (Demo.lib (Demo.from_friend false)) (Demo.start Demo.inbound)
    Demo.ses_notification Demo.mail
    0 {| message_id := VStr "msg-1"; source := "friend@example.com" |} 0
    Demo.found 0 Demo.execution 1
    (VStr "2017-01-01") (VStr "arn:execution") _ _ _ _ _ _ _ _);
    reflexivity.
Defined.

(** X11: when the handle of the started run has no [startDate],
    [receive_email] raises [KeyError] for it: the run has been asked for,
    and the caller gets an exception instead of the handle. *)
Theorem receive_email_undated_handle {W} (lib : Lib W) (s : state W)
    ses_notification mail w1 msg w2 reservation w3 execution w4 :
  boto3_client lib "stepfunctions" (world s) = (Ok tt, w1) →
  ses_notification_of (event s) = Return ses_notification →
  subscript ses_notification "mail" = Return mail →
  email_SesMailNotification lib mail w1 = (Ok msg, w2) →
  email_find_name_and_confirmation_number lib msg w2 = (Ok reservation, w3) →
  sfn_start_execution lib (os_getenv lib "STATE_MACHINE_ARN" w1)
    (VDict (forwarded msg reservation)) w3 = (Ok execution, w4) →
  execution !! "startDate" = None →
  (receive_email lib s).1 = Raise (KeyError (VStr "startDate")) ∧
  world (receive_email lib s).2 = w4 ∧
  started_runs (trace (receive_email lib s).2) =
    started_runs (trace s)
    ++ [[os_getenv lib "STATE_MACHINE_ARN" w1;
         VDict (forwarded msg reservation)]].
Proof.
  intros Hclient Hses Hmail Hmsg Hfind Hstart Hdate.
  rewrite (receive_email_asks lib s ses_notification mail w1 msg w2
             reservation w3 (Ok execution) w4) by done.
  unfold_M. cbn. rewrite Hdate. cbn.
  split; [done|]. split; [done|].
  unfold starting_trace, receiving_trace.
  rewrite !started_runs_app. cbn. rewrite ?app_nil_r. done.
Qed.

Lemma receive_email_undated_handle_witness :
  (receive_email (Outage.inbound_lib false false true)
     (Demo.start Demo.inbound)).1 = Raise (KeyError (VStr "startDate")) ∧
  world (receive_email (Outage.inbound_lib false false true)
           (Demo.start Demo.inbound)).2 = 1 ∧
  started_runs (trace (receive_email (Outage.inbound_lib false false true)
                         (Demo.start Demo.inbound)).2) =
    [[VStr "arn:state-machine"; VDict Demo.found]].
Proof.
  refine (receive_email_undated_handle
    (Outage.inbound_lib false false true) (Demo.start Demo.inbound)
    Demo.ses_notification Demo.mail
    0 {| message_id := VStr "msg-1"; source := "friend@notsouthwest.com" |} 0
    Demo.found 0 {[ "executionArn" := VStr "arn:execution" ]} 1
    _ _ _ _ _ _ _);
    reflexivity.
Defined.

(** X12: when [event['Records'][0]['ses']] cannot be read,
    [receive_email] raises what the failing subscript raises ([KeyError]
    for an event without [Records], [IndexError] for an empty [Records]);
    it has created the Step Functions client and done nothing else. *)
Theorem receive_email_malformed_event {W} (lib : Lib W) (s : state W) w1 e :
  boto3_client lib "stepfunctions" (world s) = (Ok tt, w1) →
  ses_notification_of (event s) = Raise e →
  receive_email lib s =
    (Raise e,
     State (event s) w1
       (trace s ++ [Call "boto3.client" [VStr "stepfunctions"]])) ∧
  (event s !! "Records" = None → e = KeyError (VStr "Records")) ∧
  (event s !! "Records" = Some (VList []) → e = IndexError).
Proof.
  intros Hclient Hses.
  unfold ses_notification_of in Hses. cbn in Hses.
  split; [|split].
  - unfold receive_email. unfold_M. cbn. rewrite Hclient. cbn.
    destruct (event s !! "Records") as [records|]; cbn;
      [|by injection Hses as <-].
    destruct (subscript0 records) as [record|e']; cbn;
      [|by injection Hses as <-].
    by rewrite Hses.
  - intros Hnone. rewrite Hnone in Hses. by injection Hses as <-.
  - intros Hnil. rewrite Hnil in Hses. cbn in Hses. by injection Hses as <-.
Qed.

Lemma receive_email_malformed_event_witness :
  receive_email (Demo.lib (Demo.from_friend false))
    (Demo.start {[ "Records" := VList [] ]}) =
  (Raise IndexError,
   State {[ "Records" := VList [] ]} 0
     [Call "boto3.client" [VStr "stepfunctions"]]).
Proof.
  refine (proj1 (receive_email_malformed_event
    (Demo.lib (Demo.from_friend false))
    (Demo.start {[ "Records" := VList [] ]}) 0 IndexError _ _));
    reflexivity.
Defined.

(** X13: only the extraction is guarded.  When building the
    [SesMailNotification] raises, [receive_email] raises that exception to
    its caller; no run is asked for. *)
Theorem receive_email_notification_unparsable {W} (lib : Lib W)
    (s : state W) ses_notification mail w1 e w2 :
  boto3_client lib "stepfunctions" (world s) = (Ok tt, w1) →
  ses_notification_of (event s) = Return ses_notification →
  subscript ses_notification "mail" = Return mail →
  email_SesMailNotification lib mail w1 = (Err e, w2) →
  (receive_email lib s).1 = Raise (LibError e) ∧
  started_runs (trace (receive_email lib s).2) = started_runs (trace s).
Proof.
  intros Hclient Hses Hmail Hmsg.
  unfold ses_notification_of in Hses. cbn in Hses.
  destruct (event s !! "Records") as [records|] eqn:Hrecords; [|done].
  cbn in Hses.
  destruct (subscript0 records) as [record|] eqn:Hrecord; [|done].
  unfold receive_email. unfold_M. cbn.
  rewrite Hclient. cbn. rewrite Hrecords, Hrecord. cbn.
  rewrite Hses. cbn. rewrite Hmail. cbn. rewrite Hmsg. cbn.
  split; [done|].
  rewrite !started_runs_app. cbn. rewrite ?app_nil_r. done.
Qed.

Lemma receive_email_notification_unparsable_witness :
  (receive_email (Outage.inbound_lib true false false)
     (Demo.start Demo.inbound)).1 = Raise (LibError "KeyError") ∧
  started_runs (trace (receive_email (Outage.inbound_lib true false false)
                         (Demo.start Demo.inbound)).2) = [].
Proof.
  refine (receive_email_notification_unparsable
    (Outage.inbound_lib true false false) (Demo.start Demo.inbound)
    Demo.ses_notification Demo.mail 0 "KeyError" 0 _ _ _ _);
    reflexivity.
Defined.

(** X14: when [start_execution] raises, [receive_email] raises that
    exception to its caller and returns no handle. *)
Theorem receive_email_start_refused {W} (lib : Lib W) (s : state W)
    ses_notification mail w1 msg w2 reservation w3 e w4 :
  boto3_client lib "stepfunctions" (world s) = (Ok tt, w1) →
  ses_notification_of (event s) = Return ses_notification →
  subscript ses_notification "mail" = Return mail →
  email_SesMailNotification lib mail w1 = (Ok msg, w2) →
  email_find_name_and_confirmation_number lib msg w2 = (Ok reservation, w3) →
  sfn_start_execution lib (os_getenv lib "STATE_MACHINE_ARN" w1)
    (VDict (forwarded msg reservation)) w3 = (Err e, w4) →
  receive_email lib s =
    (Raise (LibError e),
     State (event s) w4
       (trace s
        ++ starting_trace (os_getenv lib "STATE_MACHINE_ARN" w1)
             ses_notification mail msg reservation)).
Proof.
  intros Hclient Hses Hmail Hmsg Hfind Hstart.
  by rewrite (receive_email_asks lib s ses_notification mail w1 msg w2
                reservation w3 (Err e) w4).
Qed.

Lemma receive_email_start_refused_witness :
  (receive_email (Outage.inbound_lib false true false)
     (Demo.start Demo.inbound)).1 =
    Raise (LibError "ExecutionLimitExceeded").
Proof.
  refine (f_equal fst (receive_email_start_refused
    (Outage.inbound_lib false true false) (Demo.start Demo.inbound)
    Demo.ses_notification Demo.mail
    0 {| message_id := VStr "msg-1"; source := "friend@notsouthwest.com" |} 0
    Demo.found 0 "ExecutionLimitExceeded" 1 _ _ _ _ _ _));
    reflexivity.
Defined.

Lemma substring_split (s : string) (n : nat) :
  n ≤ String.length s →
  s = substring 0 n s +:+ substring n (String.length s - n) s.
Proof.
  revert s. induction n as [|n IH]; intros s Hn.
  - rewrite Nat.sub_0_r, substring_whole. by destruct s.
  - destruct s as [|c s]; [simpl in Hn; lia|].
    simpl in Hn. simpl. rewrite string_append_cons.
    f_equal. apply IH. lia.
Qed.

Lemma endswith_suffix (s suffix : string) :
  endswith s suffix = true ↔ ∃ prefix, s = prefix +:+ suffix.
Proof.
  split.
  - unfold endswith. intros [Hlen Heq]%andb_prop.
    apply Nat.leb_le in Hlen. apply String.eqb_eq in Heq.
    exists (substring 0 (String.length s - String.length suffix) s).
    pose proof (substring_split s (String.length s - String.length suffix))
      as Hsplit.
    replace (String.length s - (String.length s - String.length suffix))
      with (String.length suffix) in Hsplit by lia.
    rewrite Heq in Hsplit. apply Hsplit. lia.
  - intros [prefix ->]. apply endswith_append.
Qed.

(** X15: the test of [receive_email] on the sender is a test on the end
    of the address.  Every sender whose address ends in [southwest.com],
    whatever stands before it, starts the run with the extracted
    reservation as it is; every other sender starts it with [email] set to
    the sender's address, in place of any [email] the extraction gave. *)
Theorem receive_email_suffix_test {W} (lib : Lib W) (s : state W)
    records record ses_notification mail w1 msg w2 reservation w3 :
  boto3_client lib "stepfunctions" (world s) = (Ok tt, w1) →
  event s !! "Records" = Some records →
  subscript0 records = Return record →
  subscript record "ses" = Return ses_notification →
  subscript ses_notification "mail" = Return mail →
  email_SesMailNotification lib mail w1 = (Ok msg, w2) →
  email_find_name_and_confirmation_number lib msg w2 = (Ok reservation, w3) →
  ((∃ prefix, source msg = prefix +:+ "southwest.com") →
     started_runs (trace (receive_email lib s).2) =
       started_runs (trace s)
       ++ [[os_getenv lib "STATE_MACHINE_ARN" w1; VDict reservation]]) ∧
  ((¬ ∃ prefix, source msg = prefix +:+ "southwest.com") →
     ∃ passed_on,
       started_runs (trace (receive_email lib s).2) =
         started_runs (trace s)
         ++ [[os_getenv lib "STATE_MACHINE_ARN" w1; VDict passed_on]] ∧
       passed_on !! "email" = Some (VStr (source msg)) ∧
       (∀ k, k ≠ "email" → passed_on !! k = reservation !! k)).
Proof.
  intros Hclient Hrecords Hrecord Hses Hmail Hmsg Hfind.
  destruct (receive_email_scraped lib s records record ses_notification
              mail w1 msg w2 reservation w3) as (rest & Htrace & Hrest);
    try done.
  assert (Hstarted :
    started_runs (trace (receive_email lib s).2) =
    started_runs (trace s)
    ++ [[os_getenv lib "STATE_MACHINE_ARN" w1;
         VDict (forwarded msg reservation)]]).
  { rewrite Htrace, !started_runs_app, Hrest. cbn. done. }
  rewrite Hstarted. unfold forwarded. split.
  - intros Hsuffix%endswith_suffix. by rewrite Hsuffix.
  - intros Hother.
    destruct (endswith (source msg) "southwest.com") eqn:Hends.
    + exfalso. by apply Hother, endswith_suffix.
    + cbn. eexists. split; [done|]. split.
      * apply lookup_insert_eq.
      * intros k Hk. by apply lookup_insert_ne.
Qed.

Lemma receive_email_suffix_test_witness :
  started_runs (trace (receive_email (Outage.inbound_lib false false false)
                         (Demo.start Demo.inbound)).2) =
    [[VStr "arn:state-machine"; VDict Demo.found]].
Proof.
  refine (proj1 (receive_email_suffix_test
    (Outage.inbound_lib false false false) (Demo.start Demo.inbound)
    (VList [Demo.record]) Demo.record Demo.ses_notification Demo.mail
    0 {| message_id := VStr "msg-1"; source := "friend@notsouthwest.com" |} 0
    Demo.found 0 _ _ _ _ _ _ _) _);
    try reflexivity.
  exists "friend@not". reflexivity.
Defined.

(** ** More about the run *)

(** X16: a Gateway check-in that raises ends the run in that invocation,
    whatever is still pending: the invocation signals the failure, not
    [Continue], no notification is sent, and the one call made is the
    check-in that failed. *)
Theorem run_aborts_on_gateway_failure {W} (lib : Lib W)
    (s : state W) fn ln cn q x e w1 (max : nat) :
  identity (event s) fn ln cn →
  remaining_of (event s) = Some (q ++ [x]) →
  swa_check_in lib fn ln cn (world s) = (Err e, w1) →
  1 ≤ max →
  (run lib max s).1 = [Fatal (LibError e)] ∧
  calls_of (trace (run lib max s).2) =
    calls_of (trace s) ++ [("swa.check_in", [fn; ln; cn])] ∧
  remaining_of (event (run lib max s).2) = Some q.
Proof.
  intros Hid Hq Hgw Hmax.
  destruct max as [|max]; [lia|].
  pose proof Hq as (cit & Hcit & Hrem)%remaining_of_Some.
  cbn [run]. unfold invocation.
  rewrite schedule_check_in_planned by by eapply planned_true.
  rewrite (schedule_next_snoc s cit q x) by done.
  cbn [world trace].
  rewrite (check_in_gateway_failure lib
             (State (scheduled (event s) cit q x) (world s) (trace s))
             fn ln cn e w1);
    [|by apply identity_scheduled|done].
  cbn. split; [done|]. split.
  - rewrite calls_of_app. cbn. done.
  - apply remaining_of_scheduled.
Qed.

Lemma run_aborts_on_gateway_failure_witness :
  (run (Demo.lib (Demo.check_in_down [])) 10 Demo.two_pending).1 =
    [Fatal (LibError "CheckInError")] ∧
  calls_of (trace (run (Demo.lib (Demo.check_in_down [])) 10
                     Demo.two_pending).2) =
    [("swa.check_in", [VStr "George"; VStr "Bush"; VStr "ABC123"])] ∧
  remaining_of (event (run (Demo.lib (Demo.check_in_down [])) 10
                         Demo.two_pending).2) = Some [VStr "T+5d"].
Proof.
  refine (run_aborts_on_gateway_failure (Demo.lib (Demo.check_in_down []))
    Demo.two_pending (VStr "George") (VStr "Bush") (VStr "ABC123")
    [VStr "T+5d"] (VStr "T+2d") "CheckInError" 1 10 _ _ _ _);
    try reflexivity.
  - repeat split.
  - lia.
Defined.

(** One invocation on a planned state, with the calls it makes. *)
Lemma invocation_planned_calls {W} (lib : Lib W)
    (s : state W) fn ln cn q x resp w1 :
  identity (event s) fn ln cn →
  remaining_of (event s) = Some (q ++ [x]) →
  swa_check_in lib fn ln cn (world s) = (Ok resp, w1) →
  event (invocation lib s).2 !! "email" = event s !! "email" ∧
  calls_of (trace (invocation lib s).2) =
    calls_of (trace s)
    ++ check_in_calls fn ln cn (default VNone (event s !! "email")).
Proof.
  intros Hid Hq Hok.
  pose proof Hq as (cit & Hcit & Hrem)%remaining_of_Some.
  unfold invocation.
  rewrite schedule_check_in_planned by by eapply planned_true.
  rewrite (schedule_next_snoc s cit q x) by done.
  cbn [world trace].
  set (ev' := scheduled (event s) cit q x).
  set (s1 := State ev' (world s) (trace s)).
  assert (Hid' : identity (event s1) fn ln cn)
    by by apply identity_scheduled.
  assert (Hq' : remaining_of (event s1) = Some q)
    by apply remaining_of_scheduled.
  assert (Hemail : ev' !! "email" = event s !! "email")
    by by apply scheduled_other.
  pose proof (check_in_decides lib s1 fn ln cn resp w1 q Hid' Hq' Hok) as Hd.
  pose proof (check_in_keeps_event lib s1) as Hkeep.
  destruct (check_in_after_gateway lib s1 fn ln cn resp w1 Hid' Hok)
    as (_ & Hcalls).
  change (event s1) with ev' in Hcalls.
  change (trace s1) with (trace s) in Hcalls.
  rewrite Hemail in Hcalls.
  destruct (check_in lib s1) as [r s2]. cbn in Hd, Hkeep, Hcalls. subst r.
  destruct q as [|y q]; cbn.
  - rewrite Hkeep. done.
  - done.
Qed.

Lemma run_planned_calls {W} (lib : Lib W) fn ln cn (q : list value) :
  ∀ (s : state W) x max,
    identity (event s) fn ln cn →
    remaining_of (event s) = Some (q ++ [x]) →
    S (length q) ≤ max →
    check_ins_succeed lib fn ln cn (S (length q)) s →
    calls_of (trace (run lib max s).2) =
      calls_of (trace s)
      ++ concat (repeat
                   (check_in_calls fn ln cn
                      (default VNone (event s !! "email")))
                   (S (length q))).
Proof.
  induction q as [|y q IH] using rev_ind; intros s x max Hid Hq Hmax Hok.
  - destruct max as [|max]; [cbn in Hmax; lia|].
    destruct Hok as ((resp & w1 & Hcall) & _).
    rewrite (schedule_check_in_planned_world lib s [] x Hq) in Hcall.
    destruct (invocation_planned lib s fn ln cn [] x resp w1 Hid Hq Hcall)
      as (Hsig & _).
    destruct (invocation_planned_calls lib s fn ln cn [] x resp w1
                Hid Hq Hcall) as (_ & Hcalls).
    cbn [run]. destruct (invocation lib s) as [sig s'].
    cbn in Hsig, Hcalls. subst sig. cbn. by rewrite app_nil_r.
  - destruct max as [|max]; [cbn in Hmax; lia|].
    rewrite length_app in *. cbn [length] in *.
    rewrite Nat.add_1_r in *.
    destruct Hok as ((resp & w1 & Hcall) & Hrest).
    rewrite (schedule_check_in_planned_world lib s (q ++ [y]) x Hq) in Hcall.
    destruct (invocation_planned lib s fn ln cn (q ++ [y]) x resp w1
                Hid Hq Hcall)
      as (Hsig & Hid' & Hq' & _).
    destruct (invocation_planned_calls lib s fn ln cn (q ++ [y]) x resp w1
                Hid Hq Hcall) as (Hemail & Hcalls).
    specialize (IH (invocation lib s).2 y max Hid' Hq' ltac:(lia) Hrest).
    cbn [run]. destruct (invocation lib s) as [sig s'].
    cbn in Hsig, Hemail, Hcalls, IH.
    assert (sig = Continue) as -> by (subst sig; by destruct q).
    destruct (run lib max s') as [signals s'']. cbn in IH. cbn [snd].
    rewrite IH, Hcalls, Hemail.
    cbn [repeat concat]. by rewrite <- !app_assoc.
Qed.

Lemma count_concat_repeat {A} (P : A → Prop) `{!∀ a, Decision (P a)}
    (l : list A) (n : nat) :
  length (filter P (concat (repeat l n))) = n * length (filter P l).
Proof.
  induction n as [|n IH]; cbn; [done|].
  by rewrite filter_app, length_app, IH.
Qed.

(** X17: a run that completes checks in once per opportunity.  For a
    reservation with [N ≥ 1] check-in times and with the Gateway check-in
    of each of the [N] invocations succeeding, the calls of the whole run
    are one reservation lookup, one computation of the check-in times, and
    then [N] times a check-in followed by the notification when the event
    has a recipient: [N] [swa.check_in] calls in all, and [N] or no
    [swa.email_boarding_pass] calls. *)
Theorem run_checks_in_once_per_opportunity {W} (lib : Lib W)
    (s : state W) fn ln cn reservation w1 q w2 (N max : nat) :
  event s !! "check_in_times" = None →
  identity (event s) fn ln cn →
  swa_get_reservation lib fn ln cn (world s) = (Ok reservation, w1) →
  swa_get_check_in_times_from_reservation lib reservation w1 = (Ok q, w2) →
  length q = N →
  1 ≤ N →
  check_ins_succeed lib fn ln cn N s →
  N ≤ max →
  let email := default VNone (event s !! "email") in
  calls_of (trace (run lib max s).2) =
    calls_of (trace s)
    ++ [("swa.get_reservation", [fn; ln; cn]);
        ("swa.get_check_in_times_from_reservation", [reservation])]
    ++ concat (repeat (check_in_calls fn ln cn email) N) ∧
  count_calls "swa.check_in" (trace (run lib max s).2) =
    count_calls "swa.check_in" (trace s) + N ∧
  count_calls "swa.email_boarding_pass" (trace (run lib max s).2) =
    count_calls "swa.email_boarding_pass" (trace s)
    + (if truthy email then N else 0).
Proof.
  intros Hbare Hid Hres Htimes HN Hpos Hok Hmax email.
  assert (Hcalls :
    calls_of (trace (run lib max s).2) =
    calls_of (trace s)
    ++ [("swa.get_reservation", [fn; ln; cn]);
        ("swa.get_check_in_times_from_reservation", [reservation])]
    ++ concat (repeat (check_in_calls fn ln cn email) N)).
  { destruct q as [|x q _] using rev_ind; [cbn in HN; lia|].
    rewrite length_app in HN. cbn in HN.
    destruct max as [|max]; [lia|].
    rewrite (run_bare lib s fn ln cn reservation w1 (q ++ [x]) w2) by done.
    apply (check_ins_succeed_bare lib s fn ln cn reservation w1
             (q ++ [x]) w2 N Hbare Hid Hres Htimes) in Hok.
    replace N with (S (length q)) in Hok by lia.
    set (s0 := State _ w2 _) in *.
    rewrite (run_planned_calls lib fn ln cn q s0 x (S max));
      [|by apply identity_populated|apply remaining_of_populated|lia|done].
    unfold s0. cbn [event trace].
    rewrite lookup_insert_ne by done. fold email.
    rewrite calls_of_app. cbn [planning_trace calls_of].
    replace (S (length q)) with N by lia.
    by rewrite <- app_assoc. }
  split; [done|].
  unfold count_calls. rewrite Hcalls, !filter_app, !length_app.
  rewrite !count_concat_repeat, count_check_in_calls, count_email_calls.
  cbn. repeat (case_decide; [discriminate|]). cbn.
  split; [lia|]. destruct (truthy email); lia.
Qed.

Lemma run_checks_in_once_per_opportunity_witness :
  count_calls "swa.check_in"
    (trace (run (Outage.only_for "ABC123"
                   [VStr "T+9d"; VStr "T+5d"; VStr "T+2d"])
              10 (Demo.start Demo.george_notified)).2) = 3 ∧
  count_calls "swa.email_boarding_pass"
    (trace (run (Outage.only_for "ABC123"
                   [VStr "T+9d"; VStr "T+5d"; VStr "T+2d"])
              10 (Demo.start Demo.george_notified)).2) = 3.
Proof.
  refine (proj2 (run_checks_in_once_per_opportunity
    (Outage.only_for "ABC123" [VStr "T+9d"; VStr "T+5d"; VStr "T+2d"])
    (Demo.start Demo.george_notified)
    (VStr "George") (VStr "Bush") (VStr "ABC123")
    (Demo.reservation (VStr "ABC123")) 1
    [VStr "T+9d"; VStr "T+5d"; VStr "T+2d"] 2 3 10 _ _ _ _ _ _ _ _));
    try reflexivity.
  - repeat split.
  - cbn. lia.
  - cbn [check_ins_succeed].
    repeat split; eexists _, _; reflexivity.
  - cbn. lia.
Defined.

Lemma fetch_check_in_times_fails_calls {W} (lib : Lib W)
    (s : state W) fn ln cn e :
  identity (event s) fn ln cn →
  planning_fails lib fn ln cn (world s) e →
  count_calls "swa.check_in" (trace (fetch_check_in_times lib s).2) =
    count_calls "swa.check_in" (trace s).
Proof.
  intros (Hfn & Hln & Hcn) Hfail.
  unfold fetch_check_in_times. unfold_M. cbn.
  rewrite Hfn. cbn. rewrite Hln. cbn. rewrite Hcn. cbn.
  destruct Hfail as [(w1 & Hres)|(r & w1 & w2 & Hres & Htimes)].
  - rewrite Hres. cbn [fst snd trace]. rewrite !count_calls_app.
    unfold count_calls at 2 3. cbn.
    repeat (case_decide; [discriminate|]). cbn. lia.
  - rewrite Hres. cbn. rewrite Htimes. cbn [fst snd trace].
    rewrite !count_calls_app.
    unfold count_calls at 2 3 4 5. cbn.
    repeat (case_decide; [discriminate|]). cbn. lia.
Qed.

(** X18: when the reservation lookup or the computation of the check-in
    times raises, the run ends in its first invocation with that
    exception, and no Gateway check-in is made. *)
Theorem run_aborts_on_lookup_failure {W} (lib : Lib W)
    (s : state W) fn ln cn e (max : nat) :
  event s !! "check_in_times" = None →
  identity (event s) fn ln cn →
  planning_fails lib fn ln cn (world s) e →
  1 ≤ max →
  (run lib max s).1 = [Fatal (LibError e)] ∧
  count_calls "swa.check_in" (trace (run lib max s).2) =
    count_calls "swa.check_in" (trace s).
Proof.
  intros Hbare Hid Hfail Hmax.
  destruct max as [|max]; [lia|].
  destruct (fetch_check_in_times_fails lib s fn ln cn e Hid Hfail)
    as (Hres & _).
  pose proof (fetch_check_in_times_fails_calls lib s fn ln cn e Hid Hfail)
    as Hcount.
  cbn [run]. unfold invocation.
  rewrite schedule_check_in_unplanned by by apply planned_false.
  unfold mbind, M_bind.
  destruct (fetch_check_in_times lib s) as [r s1]. cbn in Hres, Hcount.
  subst r. cbn. done.
Qed.

Lemma run_aborts_on_lookup_failure_witness :
  (run Outage.no_reservation 10 (Demo.start Demo.george)).1 =
    [Fatal (LibError "ReservationNotFoundError")] ∧
  count_calls "swa.check_in"
    (trace (run Outage.no_reservation 10 (Demo.start Demo.george)).2) = 0.
Proof.
  refine (run_aborts_on_lookup_failure Outage.no_reservation
    (Demo.start Demo.george)
    (VStr "George") (VStr "Bush") (VStr "ABC123")
    "ReservationNotFoundError" 10 _ _ _ _);
    try reflexivity.
  - repeat split.
  - left. exists 1. reflexivity.
  - lia.
Defined.
